(** * Movie-Data-Pipeline: the enrichment loop of [ETL.py]

    A shallow embedding of the extract phase of [ETL.py] (the title parser,
    the three-stage OMDb lookup of every catalogue row, the request counter,
    the progress file and the fuzzy log) together with the part of the load
    phase that writes the [movie] table, and the properties of that code.

    Conventions.
    - A Python [str] is a [string] of ASCII characters, on which
      [str.lower] acts on [A]-[Z] and [str.strip] on the ASCII white space.
      A statement that would not hold of [str.lower] on other text says that
      its text is ASCII ([isascii]).
    - [requests_used] and the row indices are [nat] (Python integers that the
      script only ever counts upwards from 0).
    - [session.get] is a parameter: a transition on an abstract session state
      that either raises or returns a response with a [from_cache] flag,
      whose body [r.json()] decodes to a JSON object or fails to decode;
      the values that the script reads from the object are strings.
    - The state of the loop carries a record of what the run did (rows
      entered, calls made, outcomes, writes of the progress file), which the
      script does not keep; the properties are stated on it.
    - [SequenceMatcher(None, a, b).ratio()] of [difflib] is a parameter
      [ratio]; its value is a rational number. *)

From Stdlib Require Import Ascii String QArith DecimalString DecimalNat.
From stdpp Require Import list strings.

Open Scope string_scope.
Open Scope nat_scope.
Open Scope list_scope.

(** ** Python string operations used by the script *)

Module Py.

(** [c in s] for a one-character [c]. *)
Fixpoint contains (c : ascii) (s : string) : bool :=
  match s with
  | EmptyString => false
  | String a r => if Ascii.eqb a c then true else contains c r
  end.

(** Python slicing [s[start:stop]] with both bounds already clamped to
    [0 .. len(s)]. *)
Definition slice (start stop : nat) (s : string) : string :=
  substring start (stop - start) s.

(** [s[-k:]]: a negative start counts from the end and is clamped at 0. *)
Definition last_chars (k : nat) (s : string) : string :=
  slice (String.length s - k) (String.length s) s.

(** [s[-k:-j]]. *)
Definition slice_from_end (k j : nat) (s : string) : string :=
  slice (String.length s - k) (String.length s - j) s.

(** The text before the last occurrence of [c], when there is one. *)
Fixpoint before_last (c : ascii) (s : string) : option string :=
  match s with
  | EmptyString => None
  | String a r =>
      match before_last c r with
      | Some p => Some (String a p)
      | None => if Ascii.eqb a c then Some EmptyString else None
      end
  end.

(** [s.rsplit(c, 1)[0]]: everything before the last [c], or all of [s]
    when [c] does not occur. *)
Definition rsplit1_head (c : ascii) (s : string) : string :=
  match before_last c s with
  | Some p => p
  | None => s
  end.

(** White space of [str.strip()] among the ASCII characters:
    TAB, LF, VT, FF, CR, FS, GS, RS, US and the space. *)
Definition isspace (a : ascii) : bool :=
  let n := nat_of_ascii a in
  ((9 <=? n) && (n <=? 13)) || ((28 <=? n) && (n <=? 32)).

Fixpoint lstrip (s : string) : string :=
  match s with
  | EmptyString => EmptyString
  | String a r => if isspace a then lstrip r else s
  end.

Fixpoint rstrip (s : string) : string :=
  match s with
  | EmptyString => EmptyString
  | String a r =>
      match rstrip r with
      | EmptyString => if isspace a then EmptyString else String a EmptyString
      | r' => String a r'
      end
  end.

Definition strip (s : string) : string := rstrip (lstrip s).

Definition lower_char (a : ascii) : ascii :=
  let n := nat_of_ascii a in
  if (65 <=? n) && (n <=? 90) then ascii_of_nat (n + 32) else a.

(** [s.lower()]. *)
Fixpoint lower (s : string) : string :=
  match s with
  | EmptyString => EmptyString
  | String a r => String (lower_char a) (lower r)
  end.

(** [s.isascii()]: every character is below 128. *)
Fixpoint isascii (s : string) : bool :=
  match s with
  | EmptyString => true
  | String a r => (nat_of_ascii a <? 128) && isascii r
  end.

(** [s.replace(c, "")] for a one-character [c]. *)
Fixpoint remove (c : ascii) (s : string) : string :=
  match s with
  | EmptyString => EmptyString
  | String a r => if Ascii.eqb a c then remove c r else String a (remove c r)
  end.

(** [max(l, key=key)]: the running best is replaced only by an element
    of strictly greater key, so among the elements of greatest key the
    first one is returned; [None] stands for the [ValueError] that [max]
    raises on [[]]. *)
Fixpoint max_from {A} (key : A -> Q) (best : A) (l : list A) : A :=
  match l with
  | [] => best
  | x :: r => if Qle_bool (key x) (key best) then max_from key best r
              else max_from key x r
  end.

Definition max_by {A} (key : A -> Q) (l : list A) : option A :=
  match l with
  | [] => None
  | x :: r => Some (max_from key x r)
  end.

End Py.

(** ** HELPER FUNCTION (lines 61-65) *)

(** [extract_title_year]: when the title has a ["("] somewhere and a [")"]
    among its last five characters, the text before the last ["("], stripped,
    and the slice [full_title[-5:-1]]; the title itself and [None] otherwise. *)
Definition extract_title_year (full_title : string) : string * option string :=
  if Py.contains "(" full_title && Py.contains ")" (Py.last_chars 5 full_title)
  then (Py.strip (Py.rsplit1_head "(" full_title),
        Some (Py.slice_from_end 5 1 full_title))
  else (full_title, None).

(** [clean], the local function of lines 124-133. *)
Definition clean (t : string) : string :=
  Py.strip
    (Py.remove "."
       (Py.remove "-"
          (Py.remove ":"
             (Py.remove "'"
                (Py.remove "," (Py.lower t)))))).

(** ** CONSTANTS (lines 38-39) *)

Definition MAX_REQUESTS_PER_DAY : nat := 1000.

(** ** Data *)

(** A row of [movies]: the three columns of [movies.csv] and the three
    columns the script adds (lines 74-76). *)
Module Movie.
Record t := mk {
  movieId : nat;
  title : string;
  genres : string;
  Director : option string;
  Plot : option string;
  BoxOffice : option string }.
End Movie.

(** The [params] of the three [session.get] calls (lines 98, 114, 153);
    the [apikey] entry, the same in all three, is left out. *)
Inductive params :=
| Exact (t : string) (y : option string)   (* {"t": title, "y": year} *)
| TitleOnly (t : string)                   (* {"t": title} *)
| SearchBy (s : string).                   (* {"s": title} *)

(** An element of the ["Search"] list of a search answer. *)
Record candidate := { cand_Title : string; cand_Year : string }.

(** The body [r.json()] of an answer: the keys the script reads, each
    possibly missing. *)
Module Json.
Record t := mk {
  Response : option string;
  Title : option string;
  Year : option string;
  Director : option string;
  Plot : option string;
  BoxOffice : option string;
  Search : option (list candidate) }.
End Json.

(** What [session.get] does: it raises (the retries of lines 46-53 are
    used up, or the 6 second timeout passed), or it returns a response with
    its [from_cache] attribute and its body. The body is the JSON object
    that [r.json()] returns, or it is not JSON and [r.json()] raises. *)
Inductive reply :=
| Raises
| Answers (from_cache : bool) (data : Json.t)
| Undecodable (from_cache : bool).

(** An element of [fuzzy_log] (lines 144-149 and 163-168). *)
Record log_entry := {
  CSV_Title : string;
  Suggested_Match : string;
  entry_Year : option string;
  Score : Q }.

(** The content of [progress.json]: a JSON object that may hold the key
    ["last_index"]. *)
Record progress := { last_index : option nat }.

Inductive exn :=
| RequestException   (* raised by [session.get], and by [r.json()] as
                        its subclass [JSONDecodeError] *)
| KeyError           (* a missing key or row label *)
| ValueError.        (* [max] of an empty list *)

(** How the processing of a row ended. *)
Inductive outcome :=
| ResolvedExact                      (* line 106 *)
| ResolvedTitleOnly                  (* line 136 *)
| MismatchLogged (e : log_entry)     (* line 143 *)
| FuzzyLogged (e : log_entry)        (* line 162 *)
| Unresolved.                        (* the search found nothing *)

Definition resolved (o : outcome) : bool :=
  match o with
  | ResolvedExact | ResolvedTitleOnly => true
  | _ => false
  end.

(** The observable steps of a run, recorded newest first. [used] is the
    value of [requests_used] right after the step. *)
Inductive event :=
| RowStarted (index used : nat)                   (* line 95 is reached *)
| Requested (p : params) (r : reply) (used : nat) (* a [session.get] call *)
| Outcome (index : nat) (o : outcome)
| ProgressWritten (index : nat).                  (* line 170 *)

(** The variables of the script during the loop, the progress file and the
    state of the HTTP session (with its cache). *)
Record state (Session : Type) := mkState {
  movies : list Movie.t;
  requests_used : nat;
  fuzzy_log : list log_entry;
  progress_file : option progress;
  session : Session;
  events : list event }.

Arguments mkState {Session}.
Arguments movies {Session}.
Arguments requests_used {Session}.
Arguments fuzzy_log {Session}.
Arguments progress_file {Session}.
Arguments session {Session}.
Arguments events {Session}.

(** A statement ends normally with a value and a state, or raises. *)
Inductive result (Session A : Type) :=
| Ok (a : A) (st : state Session)
| Raise (e : exn) (st : state Session).

Arguments Ok {Session A}.
Arguments Raise {Session A}.

Definition M (Session A : Type) : Type := state Session -> result Session A.

Definition ret {Session A} (a : A) : M Session A := fun st => Ok a st.

Definition bind {Session A B} (c : M Session A) (k : A -> M Session B)
  : M Session B :=
  fun st =>
    match c st with
    | Ok a st' => k a st'
    | Raise e st' => Raise e st'
    end.

Definition raise {Session A} (e : exn) : M Session A := fun st => Raise e st.

Notation "'do' x <- c ; k" := (bind c (fun x => k))
  (at level 10, x name, c at level 100, k at level 200).
Notation "c ;; k" := (bind c (fun _ => k))
  (at level 100, k at level 200, right associativity).

(** Where the body of the loop ends: at a [continue] or at its last line. *)
Inductive flow := Continue | EndOfBody.

(** ** EXTRACT: the loop of lines 89-171 *)

Section Extract.

Context {Session : Type}.

(** [session.get(OMDB_URL, params=..., timeout=6)]. *)
Variable session_get : Session -> params -> reply * Session.

(** [SequenceMatcher(None, a, b).ratio()]. *)
Variable ratio : string -> string -> Q.

Abbreviation state := (state Session).
Abbreviation M := (M Session).

Definition note (e : event) : M unit :=
  fun st => Ok tt (mkState (movies st) (requests_used st) (fuzzy_log st)
                     (progress_file st) (session st) (e :: events st)).

(** [r = session.get(...)], [if not getattr(r, "from_cache", False):
    requests_used += 1], [data = r.json()]: lines 98-103, 114-118 and
    153-156. When [session.get] raises, the counter is as it was. A
    response is counted, unless it comes from the cache, before its body is
    decoded: when [r.json()] raises, the counter has already been
    incremented. *)
Definition fetch (p : params) : M Json.t :=
  fun st =>
    let '(r, s') := session_get (session st) p in
    match r with
    | Raises =>
        Raise RequestException
          (mkState (movies st) (requests_used st) (fuzzy_log st)
             (progress_file st) s'
             (Requested p r (requests_used st) :: events st))
    | Answers from_cache data =>
        let used :=
          if from_cache then requests_used st else requests_used st + 1 in
        Ok data
          (mkState (movies st) used (fuzzy_log st) (progress_file st) s'
             (Requested p r used :: events st))
    | Undecodable from_cache =>
        let used :=
          if from_cache then requests_used st else requests_used st + 1 in
        Raise RequestException
          (mkState (movies st) used (fuzzy_log st) (progress_file st) s'
             (Requested p r used :: events st))
    end.

(** [movies.at[index, "title"]]. *)
Definition movie_at (index : nat) : M Movie.t :=
  fun st =>
    match movies st !! index with
    | Some row => Ok row st
    | None => Raise KeyError st
    end.

Definition enrich (data : Json.t) (row : Movie.t) : Movie.t :=
  Movie.mk (Movie.movieId row) (Movie.title row) (Movie.genres row)
    (Json.Director data) (Json.Plot data) (Json.BoxOffice data).

(** The three assignments [movies.at[index, ...] = data.get(...)]. *)
Definition set_enrichment (index : nat) (data : Json.t) : M unit :=
  fun st => Ok tt (mkState (alter (enrich data) index (movies st))
                     (requests_used st) (fuzzy_log st) (progress_file st)
                     (session st) (events st)).

(** [fuzzy_log.append(e)]. *)
Definition fuzzy_log_append (e : log_entry) : M unit :=
  fun st => Ok tt (mkState (movies st) (requests_used st)
                     (fuzzy_log st ++ [e]) (progress_file st) (session st)
                     (events st)).

(** [Path(PROGRESS_FILE).write_text(json.dumps({"last_index": index}))]. *)
Definition write_progress (index : nat) : M unit :=
  fun st => Ok tt (mkState (movies st) (requests_used st) (fuzzy_log st)
                     (Some {| last_index := Some index |}) (session st)
                     (ProgressWritten index :: events st)).

(** [data.get("Response") == "True"]. *)
Definition found (data : Json.t) : bool :=
  match Json.Response data with
  | Some r => String.eqb r "True"
  | None => false
  end.

(** Lines 95-168. *)
Definition cascade (index : nat) : M flow :=
  do row <- movie_at index;
  let '(title, year) := extract_title_year (Movie.title row) in
  (* Exact match (title + year) *)
  do data <- fetch (Exact title year);
  if found data then
    set_enrichment index data;;
    note (Outcome index ResolvedExact);;
    ret Continue
  else
    (* Title-only fallback *)
    do data <- fetch (TitleOnly title);
    if found data then
      let returned_title := default "" (Json.Title data) in
      if String.eqb (clean returned_title) (clean title) then
        set_enrichment index data;;
        note (Outcome index ResolvedTitleOnly);;
        ret Continue
      else
        let e := {| CSV_Title := title;
                    Suggested_Match := returned_title;
                    entry_Year := Json.Year data;
                    Score := ratio (Py.lower title)
                               (Py.lower returned_title) |} in
        fuzzy_log_append e;;
        note (Outcome index (MismatchLogged e));;
        ret EndOfBody
    else
      (* Fuzzy search *)
      do data <- fetch (SearchBy title);
      if found data then
        match Json.Search data with
        | None => raise KeyError
        | Some search =>
            match Py.max_by (fun m => ratio title (cand_Title m)) search with
            | None => raise ValueError
            | Some best =>
                let score := ratio title (cand_Title best) in
                let e := {| CSV_Title := title;
                            Suggested_Match := cand_Title best;
                            entry_Year := Some (cand_Year best);
                            Score := score |} in
                fuzzy_log_append e;;
                note (Outcome index (FuzzyLogged e));;
                ret EndOfBody
            end
        end
      else
        note (Outcome index Unresolved);;
        ret EndOfBody.

(** Lines 95-171: the body of the loop below the limit test. Line 170 is
    reached only when no [continue] was executed. *)
Definition body (index : nat) : M unit :=
  do f <- cascade index;
  match f with
  | Continue => ret tt
  | EndOfBody => write_progress index
  end.

(** How the loop ends: it ran to its end or left by [break], or the body
    of row [index] raised. *)
Inductive loop_result :=
| Completed (st : state)
| Aborted (index : nat) (e : exn) (st : state).

(** [for index in range(...)], over the indices still to visit. *)
Fixpoint loop (indices : list nat) (st : state) : loop_result :=
  match indices with
  | [] => Completed st
  | index :: rest =>
      if MAX_REQUESTS_PER_DAY <=? requests_used st then Completed st  (* break *)
      else
        match (note (RowStarted index (requests_used st));; body index) st with
        | Ok _ st' => loop rest st'
        | Raise e st' => Aborted index e st'
        end
  end.

(** Lines 79-81. *)
Definition start_index (file : option progress) : nat :=
  match file with
  | Some p => default 0 (last_index p)
  | None => 0
  end.

(** [range(start, stop)]. *)
Definition range (start stop : nat) : list nat := seq start (stop - start).

End Extract.

(** ** TRANSFORM and LOAD: the [movie] table (lines 189-192, 220-230) *)

(** A row of the table [movie]. *)
Module MovieRow.
Record t := mk {
  mid : nat;
  title : string;
  release_year : option nat;
  director : option string;
  plot : option string;
  box_office : option string;
  decade : option string }.
End MovieRow.

Definition isdigit (a : ascii) : bool :=
  let n := nat_of_ascii a in (48 <=? n) && (n <=? 57).

Definition digit_value (a : ascii) : nat := nat_of_ascii a - 48.

(** The group of the first match of the pattern [\((\d{4})\)], as a
    number ([str.extract] followed by [astype("Int64")]). *)
Fixpoint first_paren_year (s : string) : option nat :=
  match s with
  | EmptyString => None
  | String c r =>
      match c, r with
      | "("%char, String d1 (String d2 (String d3 (String d4 (String ")" _)))) =>
          if isdigit d1 && isdigit d2 && isdigit d3 && isdigit d4
          then Some (1000 * digit_value d1 + 100 * digit_value d2
                     + 10 * digit_value d3 + digit_value d4)
          else first_paren_year r
      | _, _ => first_paren_year r
      end
  end.

(** [f"{int(y)//10*10}s"]. *)
Definition decade_of (y : nat) : string :=
  NilEmpty.string_of_uint (Nat.to_uint (y / 10 * 10)) +:+ "s".

(** The record that [movies.rename(...)[[...]].to_dict(orient="records")]
    yields for a row. *)
Definition movie_record (m : Movie.t) : MovieRow.t :=
  let y := first_paren_year (Movie.title m) in
  MovieRow.mk (Movie.movieId m) (Movie.title m) y (Movie.Director m)
    (Movie.Plot m) (Movie.BoxOffice m) (decade_of <$> y).

(** [INSERT INTO movie ... ON CONFLICT (movie_id) DO NOTHING]. *)
Definition insert_movie (table : list MovieRow.t) (r : MovieRow.t)
  : list MovieRow.t :=
  if existsb (fun x => MovieRow.mid x =? MovieRow.mid r) table
  then table else table ++ [r].

Definition load_movies (ms : list Movie.t) (table : list MovieRow.t)
  : list MovieRow.t :=
  fold_left insert_movie (movie_record <$> ms) table.

(** ** The whole script *)

(** A line of [movies.csv]. *)
Record csv_row := { csv_movieId : nat; csv_title : string; csv_genres : string }.

(** What a run finds and leaves behind, the HTTP cache apart: the two JSON
    files and the table [movie]. The other tables do not depend on the
    loop and are left out. *)
Record store := {
  progress_json : option progress;
  fuzzy_matches_json : option (list log_entry);
  movie_table : list MovieRow.t }.

Section Script.

Context {Session : Type}.
Variable session_get : Session -> params -> reply * Session.
Variable ratio : string -> string -> Q.

Abbreviation state := (state Session).

(** Lines 71-76. *)
Definition read_movies (csv : list csv_row) : list Movie.t :=
  (fun r => Movie.mk (csv_movieId r) (csv_title r) (csv_genres r)
              None None None) <$> csv.

(** The state in which the loop is entered (lines 71-86). *)
Definition initial (csv : list csv_row) (w : store) (s : Session) : state :=
  mkState (read_movies csv) 0 [] (progress_json w) s [].

(** Lines 174-180: the log is written when it is not empty. *)
Definition save_fuzzy_log (log : list log_entry) (old : option (list log_entry))
  : option (list log_entry) :=
  match log with
  | [] => old
  | _ => Some log
  end.

(** How the script ends: at its last line, or with the traceback of an
    exception raised in the loop (nothing after the loop is then run). *)
Inductive run_result :=
| Finished (st : state) (w : store)
| Crashed (index : nat) (e : exn) (st : state) (w : store).

Definition run (csv : list csv_row) (w : store) (s : Session) : run_result :=
  let st0 := initial csv w s in
  match loop session_get ratio
          (range (start_index (progress_json w)) (length (movies st0))) st0 with
  | Completed st =>
      Finished st
        {| progress_json := progress_file st;
           fuzzy_matches_json := save_fuzzy_log (fuzzy_log st) (fuzzy_matches_json w);
           movie_table := load_movies (movies st) (movie_table w) |}
  | Aborted index e st =>
      Crashed index e st
        {| progress_json := progress_file st;
           fuzzy_matches_json := fuzzy_matches_json w;
           movie_table := movie_table w |}
  end.

End Script.

(** ** A session to run the script on

    An instance of [session_get]: a service that answers every request from
    a fixed table, behind the cache of line 43 (which never expires), on a
    network that is down for some of the live calls. *)

Module Web.

(** The request as it is sent: [requests] leaves out a parameter whose value
    is [None], so an exact query without a year is the title-only query. *)
Definition sent (p : params) : params :=
  match p with
  | Exact t None => TitleOnly t
  | _ => p
  end.

Definition option_eqb (a b : option string) : bool :=
  match a, b with
  | Some x, Some y => String.eqb x y
  | None, None => true
  | _, _ => false
  end.

Definition params_eqb (p q : params) : bool :=
  match p, q with
  | Exact t y, Exact t' y' => String.eqb t t' && option_eqb y y'
  | TitleOnly t, TitleOnly t' => String.eqb t t'
  | SearchBy s, SearchBy s' => String.eqb s s'
  | _, _ => false
  end.

(** The requests answered so far, and for each live call still to come
    whether the network is down ([true]); past the end it is up. *)
Record t := mk { cached : list params; down : list bool }.

Definition get (service : params -> Json.t) (w : t) (p : params) : reply * t :=
  if existsb (params_eqb (sent p)) (cached w)
  then (Answers true (service (sent p)), w)
  else
    match down w with
    | true :: d => (Raises, mk (cached w) d)
    | false :: d => (Answers false (service (sent p)), mk (sent p :: cached w) d)
    | [] => (Answers false (service (sent p)), mk (sent p :: cached w) [])
    end.

Definition fresh : t := mk [] [].

End Web.

Definition not_found : Json.t :=
  Json.mk (Some "False") None None None None None None.

Definition film (title year director : string) : Json.t :=
  Json.mk (Some "True") (Some title) (Some year) (Some director)
    (Some "A plot.") (Some "N/A") None.

Definition hits (l : list candidate) : Json.t :=
  Json.mk (Some "True") None None None None None (Some l).

(** A stand-in for [ratio] in the examples: 1 for equal strings, 1/2
    otherwise. *)
Definition demo_ratio (a b : string) : Q :=
  if String.eqb a b then 1%Q else (1 # 2)%Q.

Definition empty_store : store := Build_store None None [].

Definition demo_service (p : params) : Json.t :=
  match p with
  | Exact "Toy Story" (Some "1995") => film "Toy Story" "1995" "John Lasseter"
  | TitleOnly "Dr Strangelove" => film "Dr. Strangelove" "1964" "Stanley Kubrick"
  | TitleOnly "Heat" => film "The Heat" "2013" "Paul Feig"
  | SearchBy "Some Obscure Film" => hits [Build_candidate "Obscure Film" "1978"]
  | _ => not_found
  end.

Definition demo_csv : list csv_row :=
  [ Build_csv_row 1 "Toy Story (1995)" "Animation";
    Build_csv_row 2 "Dr Strangelove (1964)" "Comedy";
    Build_csv_row 3 "Heat (1995)" "Action";
    Build_csv_row 4 "Some Obscure Film (1978)" "Drama";
    Build_csv_row 5 "Nothing (2003)" "Drama" ].


(** A catalogue of [n] films that the service does not know, each with a
    title of its own: ["Film 0 (2000)"], ["Film 1 (2000)"], ... *)
Definition numbered_title (n : nat) : string :=
  "Film " +:+ NilEmpty.string_of_uint (Nat.to_uint n) +:+ " (2000)".

Definition unknown_films (n : nat) : list csv_row :=
  (fun i => Build_csv_row i (numbered_title i) "Drama") <$> seq 0 n.

Definition no_service (p : params) : Json.t := not_found.

(** ** Reading the record of a run *)

(** A call that returned a response, and not from the cache. *)
Definition is_live (e : event) : bool :=
  match e with
  | Requested _ (Answers false _) _ => true
  | Requested _ (Undecodable false) _ => true
  | _ => false
  end.

(** The number of live calls in a record. *)
Definition live_calls (l : list event) : nat := length (filter is_live l).

(** The value of [requests_used] that an event records. *)
Definition used_of (e : event) : option nat :=
  match e with
  | RowStarted _ u => Some u
  | Requested _ _ u => Some u
  | _ => None
  end.

Definition is_request (e : event) : bool :=
  match e with
  | Requested _ _ _ => true
  | _ => false
  end.

(** The state in which a statement, the loop or the script ended. *)
Definition state_of {Session A} (r : result Session A) : state Session :=
  match r with
  | Ok _ st => st
  | Raise _ st => st
  end.

Definition loop_state {Session} (r : loop_result (Session := Session))
  : state Session :=
  match r with
  | Completed st => st
  | Aborted _ _ st => st
  end.

Definition run_state {Session} (r : run_result (Session := Session))
  : state Session :=
  match r with
  | Finished st _ => st
  | Crashed _ _ st _ => st
  end.

Definition run_store {Session} (r : run_result (Session := Session)) : store :=
  match r with
  | Finished _ w => w
  | Crashed _ _ _ w => w
  end.

(** Every counter value in the record [l] is [base] plus the number of live
    calls up to and including its event, where [base] counts the live calls
    made before [l]. *)
Fixpoint accounted (base : nat) (l : list event) : Prop :=
  match l with
  | [] => True
  | e :: earlier =>
      (forall u, used_of e = Some u -> u = base + live_calls (e :: earlier))
      /\ accounted base earlier
  end.

Definition is_row_start (e : event) : bool :=
  match e with
  | RowStarted _ _ => true
  | _ => false
  end.

Definition is_outcome (e : event) : bool :=
  match e with
  | Outcome _ _ => true
  | _ => false
  end.

Definition is_progress (e : event) : bool :=
  match e with
  | ProgressWritten _ => true
  | _ => false
  end.

(** The row an outcome or a write of the progress file belongs to. *)
Definition row_of (e : event) : option nat :=
  match e with
  | Outcome i _ => Some i
  | ProgressWritten i => Some i
  | RowStarted i _ => Some i
  | Requested _ _ _ => None
  end.

Definition is_resolved (e : event) : bool :=
  match e with
  | Outcome _ o => resolved o
  | _ => false
  end.

(** A call that ended with an exception: [session.get] raised, or the
    body of the response was not JSON. *)
Definition failed (r : reply) : bool :=
  match r with
  | Answers _ _ => false
  | Raises | Undecodable _ => true
  end.

(** [session.get] raises during the lookups of a title and a year, started
    in the session state [s]: at the exact query, or at the title-only
    query after an exact query that found nothing, or at the search after
    two queries that found nothing. *)
Definition transport_fails {Session}
  (session_get : Session -> params -> reply * Session)
  (s : Session) (title : string) (year : option string) : Prop :=
  (exists s1, session_get s (Exact title year) = (Raises, s1))
  \/ (exists c1 d1 s1 s2,
         session_get s (Exact title year) = (Answers c1 d1, s1)
         /\ found d1 = false
         /\ session_get s1 (TitleOnly title) = (Raises, s2))
  \/ (exists c1 d1 s1 c2 d2 s2 s3,
         session_get s (Exact title year) = (Answers c1 d1, s1)
         /\ found d1 = false
         /\ session_get s1 (TitleOnly title) = (Answers c2 d2, s2)
         /\ found d2 = false
         /\ session_get s2 (SearchBy title) = (Raises, s3)).

(** What a call adds to [requests_used]. *)
Definition cost (r : reply) : nat :=
  match r with
  | Answers false _ => 1
  | Undecodable false => 1
  | _ => 0
  end.

(** The state in which the body of row [index] is entered. *)
Definition started {Session} (index : nat) (st : state Session) : state Session :=
  mkState (movies st) (requests_used st) (fuzzy_log st) (progress_file st)
    (session st) (RowStarted index (requests_used st) :: events st).

(** What holds of the counter and of the record whenever the loop is at
    the head of an iteration. *)
Definition counted {Session} (st : state Session) : Prop :=
  requests_used st = live_calls (events st)
  /\ accounted 0 (events st)
  /\ Forall (fun e => is_row_start e = true ->
                      forall u, used_of e = Some u -> u < MAX_REQUESTS_PER_DAY)
       (events st)
  /\ Forall (fun e => forall u, used_of e = Some u ->
                                u <= MAX_REQUESTS_PER_DAY + 2) (events st).

(** An ASCII capital. *)
Definition is_upper (a : ascii) : bool :=
  let n := nat_of_ascii a in (65 <=? n) && (n <=? 90).

(** Every search answer with ["Response": "True"] carries a ["Search"] list
    that is not empty. *)
Definition search_answers_nonempty {Session}
  (session_get : Session -> params -> reply * Session) : Prop :=
  forall s q from_cache data s',
    session_get s (SearchBy q) = (Answers from_cache data, s') ->
    found data = true ->
    exists x l, Json.Search data = Some (x :: l).

(** ** Scenarios *)

(** A catalogue of four films: the first is found by the exact query, the
    second by the title-only query under another title, the third by the
    search only, the fourth not at all. *)
Definition four_films : list csv_row :=
  [ Build_csv_row 1 "Toy Story (1995)" "Animation";
    Build_csv_row 3 "Heat (1995)" "Action";
    Build_csv_row 4 "Some Obscure Film (1978)" "Drama";
    Build_csv_row 5 "Nothing (2003)" "Drama" ].

(** The script run once on [four_films], from nothing, with the network up. *)
Definition one_pass : run_result :=
  run (Web.get demo_service) demo_ratio four_films empty_store Web.fresh.

(** The script run on [four_films] from nothing, with the network going
    down at the seventh live call (the exact query of the fourth film) ... *)
Definition first_pass : run_result :=
  run (Web.get demo_service) demo_ratio four_films empty_store
    (Web.mk [] [false; false; false; false; false; false; true]).

(** ... and run again on what the first run left behind: the files, the
    table and the cache, with the network up. *)
Definition second_pass : run_result :=
  run (Web.get demo_service) demo_ratio four_films (run_store first_pass)
    (session (run_state first_pass)).

(** 334 unknown films followed by one that the exact query finds. *)
Definition long_catalogue : list csv_row :=
  unknown_films 334 ++ [Build_csv_row 334 "Toy Story (1995)" "Animation"].

(** Two runs on [long_catalogue], the second on what the first left. *)
Definition first_day : run_result :=
  run (Web.get demo_service) demo_ratio long_catalogue empty_store Web.fresh.

Definition second_day : run_result :=
  run (Web.get demo_service) demo_ratio long_catalogue (run_store first_day)
    (session (run_state first_day)).

(** A service whose every search finds one candidate, and one whose every
    search answers ["Response": "True"] with an empty list. *)
Definition search_service (p : params) : Json.t :=
  match p with
  | SearchBy _ => hits [Build_candidate "Up" "2009"]
  | _ => not_found
  end.

Definition empty_search_service (p : params) : Json.t :=
  match p with
  | SearchBy _ => hits []
  | _ => not_found
  end.

(** ** TRANSFORM: genres and users (lines 194-200) *)

(** [s.split(sep)] for a one-character [sep]: the pieces between the
    separators, at least one. *)
Fixpoint split (sep : ascii) (s : string) : list string :=
  match s with
  | EmptyString => [EmptyString]
  | String c r =>
      if Ascii.eqb c sep then EmptyString :: split sep r
      else match split sep r with
           | x :: xs => String c x :: xs
           | [] => [String c EmptyString]
           end
  end.

(** [sep.join(l)]. *)
Fixpoint join (sep : ascii) (l : list string) : string :=
  match l with
  | [] => EmptyString
  | [x] => x
  | x :: r => x +:+ String sep (join sep r)
  end.

(** A row of [movie_genres]: the two columns copied from [movies] and the
    column [genre]. *)
Record genre_row := { mg_movieId : nat; mg_genres : string; mg_genre : string }.

(** Lines 194-197: the genres of every film are split at ["|"], the frame is
    exploded to one row for each piece, and the pieces are stripped. *)
Definition movie_genres (ms : list Movie.t) : list genre_row :=
  m ← ms;
  (fun g => Build_genre_row (Movie.movieId m) (Movie.genres m) (Py.strip g))
    <$> split "|" (Movie.genres m).

(** [pd.unique] and [Series.unique]: the values in the order in which they
    first appear. *)
Fixpoint unique_from {A} `{EqDecision A} (seen l : list A) : list A :=
  match l with
  | [] => []
  | x :: r =>
      if decide (x ∈ seen) then unique_from seen r
      else x :: unique_from (x :: seen) r
  end.

Definition unique {A} `{EqDecision A} (l : list A) : list A := unique_from [] l.

(** Line 199, on the column [userId] of [ratings]. *)
Definition users (userId : list nat) : list nat := unique userId.

(** Line 200. *)
Definition genres (ms : list Movie.t) : list string :=
  unique (mg_genre <$> movie_genres ms).

(** ** LOAD: the table [user_t] (lines 208-212) *)

(** [str(n)] for a number that is not negative. *)
Definition str_of_nat (n : nat) : string :=
  NilEmpty.string_of_uint (Nat.to_uint n).

(** The parameters [{"uid": int(uid), "uname": f"User_{uid}"}]. *)
Definition user_record (uid : nat) : nat * string :=
  (uid, "User_" +:+ str_of_nat uid).

(** [INSERT INTO user_t ... ON CONFLICT (user_id) DO NOTHING]. *)
Definition insert_user (table : list (nat * string)) (r : nat * string)
  : list (nat * string) :=
  if existsb (fun x => fst x =? fst r) table then table else table ++ [r].

Definition load_users (us : list nat) (table : list (nat * string))
  : list (nat * string) :=
  fold_left insert_user (user_record <$> us) table.

(** ** Reading tables, titles and records *)

(** An insert that does nothing on a conflict of the key [key]. *)
Definition insert_new {A} (key : A -> nat) (table : list A) (r : A) : list A :=
  if existsb (fun x => key x =? key r) table then table else table ++ [r].

(** The row of a table with a given key. *)
Definition select {A} (key : A -> nat) (k : nat) (table : list A) : option A :=
  find (fun x => key x =? k) table.

(** The number that four decimal digits write. *)
Definition year_number (d : string) : option nat :=
  match d with
  | String d1 (String d2 (String d3 (String d4 EmptyString))) =>
      if isdigit d1 && isdigit d2 && isdigit d3 && isdigit d4
      then Some (1000 * digit_value d1 + 100 * digit_value d2
                 + 10 * digit_value d3 + digit_value d4)
      else None
  | _ => None
  end.

(** The calls of a record, oldest first. *)
Definition calls (l : list event) : list (params * reply) :=
  rev (omap (fun e => match e with
                      | Requested p r _ => Some (p, r)
                      | _ => None
                      end) l).

(** The indices of the rows entered, oldest first. *)
Definition rows_started (l : list event) : list nat :=
  rev (omap (fun e => match e with
                      | RowStarted i _ => Some i
                      | _ => None
                      end) l).

(** The entries that the outcomes of a record say were logged, oldest
    first. *)
Definition logged (l : list event) : list log_entry :=
  rev (omap (fun e => match e with
                      | Outcome _ (MismatchLogged x) => Some x
                      | Outcome _ (FuzzyLogged x) => Some x
                      | _ => None
                      end) l).

(** The index of the last write of the progress file in a record. *)
Definition last_written (l : list event) : option nat :=
  head (omap (fun e => match e with
                       | ProgressWritten i => Some i
                       | _ => None
                       end) l).

(** The characters that [clean] deletes. *)
Definition punctuation : list ascii :=
  [","%char; "'"%char; ":"%char; "-"%char; "."%char].

(** The five deletions of [clean], in the order of the source. *)
Definition unpunctuate (s : string) : string :=
  Py.remove "." (Py.remove "-" (Py.remove ":" (Py.remove "'" (Py.remove "," s)))).

(** The number of occurrences of a character. *)
Fixpoint occurrences (c : ascii) (s : string) : nat :=
  match s with
  | EmptyString => 0
  | String a r => (if Ascii.eqb a c then 1 else 0) + occurrences c r
  end.

(** The year that the text after a ["("] starts with: four digits and a
    [")"]. *)
Definition year_here (r : string) : option nat :=
  match r with
  | String d1 (String d2 (String d3 (String d4 (String e _)))) =>
      if Ascii.eqb e ")" && (isdigit d1 && isdigit d2 && isdigit d3 && isdigit d4)
      then Some (1000 * digit_value d1 + 100 * digit_value d2
                 + 10 * digit_value d3 + digit_value d4)
      else None
  | _ => None
  end.

(** One step of [first_paren_year], with the scan of the rest of the text
    as a parameter. *)
Definition first_paren_year_step (rest : string -> option nat) (s : string)
  : option nat :=
  match s with
  | EmptyString => None
  | String c r =>
      match c, r with
      | "("%char, String d1 (String d2 (String d3 (String d4 (String ")" _)))) =>
          if isdigit d1 && isdigit d2 && isdigit d3 && isdigit d4
          then Some (1000 * digit_value d1 + 100 * digit_value d2
                     + 10 * digit_value d3 + digit_value d4)
          else rest r
      | _, _ => rest r
      end
  end.

(** * The record of a run *)

(** The rows that ended with an outcome, oldest first. *)
Definition rows_done (l : list event) : list nat :=
  rev (omap (fun e => match e with
                      | Outcome i _ => Some i
                      | _ => None
                      end) l).

(** The rows for which the progress file was written, oldest first. *)
Definition rows_written (l : list event) : list nat :=
  rev (omap (fun e => match e with
                      | ProgressWritten i => Some i
                      | _ => None
                      end) l).

(** The rows that ended with an outcome that is not a resolved one, oldest
    first. *)
Definition rows_unresolved (l : list event) : list nat :=
  rev (omap (fun e => match e with
                      | Outcome i o => if resolved o then None else Some i
                      | _ => None
                      end) l).

(** The columns of a row that come from [movies.csv]. *)
Definition csv_columns (m : Movie.t) : nat * string * string :=
  (Movie.movieId m, Movie.title m, Movie.genres m).

(** What the code writes into a log entry for a row whose parsed title is
    [title]. *)
Definition entry_of (ratio : string -> string -> Q) (title : string)
  (o : outcome) : Prop :=
  match o with
  | MismatchLogged x =>
      CSV_Title x = title
      /\ Score x = ratio (Py.lower title) (Py.lower (Suggested_Match x))
  | FuzzyLogged x =>
      CSV_Title x = title
      /\ Score x = ratio title (Suggested_Match x)
      /\ is_Some (entry_Year x)
  | _ => True
  end.
(** An outcome recorded for a row carries an entry made from the title of
    that row. *)
Definition entry_recorded (ratio : string -> string -> Q)
  (ms : list Movie.t) (e : event) : Prop :=
  match e with
  | Outcome j o =>
      exists m, ms !! j = Some m
                /\ entry_of ratio (extract_title_year (Movie.title m)).1 o
  | _ => True
  end.

(** The title and the year that the loop takes from a row (line 95). *)
Definition title_of (r : Movie.t) : string :=
  (extract_title_year (Movie.title r)).1.

Definition year_of (r : Movie.t) : option string :=
  (extract_title_year (Movie.title r)).2.

(** The call [e] found the film of row [r], and [m] is [r] with the three
    columns of its answer: the exact query of the row, or its title-only
    query with an answer whose title is the row's when cleaned. *)
Definition enriched_by (r m : Movie.t) (e : event) : Prop :=
  match e with
  | Requested p (Answers _ d) _ =>
      found d = true
      /\ m = enrich d r
      /\ (p = Exact (title_of r) (year_of r)
          \/ p = TitleOnly (title_of r)
             /\ clean (default "" (Json.Title d)) = clean (title_of r))
  | _ => False
  end.

(** A reply that sends the cascade to its next query: an answer whose
    [Response] is not ["True"]. *)
Definition passes_on (r : reply) : bool :=
  match r with
  | Answers _ d => negb (found d)
  | Raises | Undecodable _ => false
  end.

(** The calls that the cascade may make for a title and a year, with their
    replies: the exact query; then the title-only query if the exact one
    found nothing; then the search if neither found anything. *)
Definition cascade_calls (t : string) (y : option string)
  (cs : list (params * reply)) : Prop :=
  match cs with
  | [(p1, r1)] => p1 = Exact t y /\ passes_on r1 = false
  | [(p1, r1); (p2, r2)] =>
      p1 = Exact t y /\ passes_on r1 = true
      /\ p2 = TitleOnly t /\ passes_on r2 = false
  | [(p1, r1); (p2, r2); (p3, r3)] =>
      p1 = Exact t y /\ passes_on r1 = true
      /\ p2 = TitleOnly t /\ passes_on r2 = true
      /\ p3 = SearchBy t
  | _ => False
  end.

(** * Properties *)

(** ** The string operations *)

Example extract_toy_story :
  extract_title_year "Toy Story (1995)" = ("Toy Story", Some "1995").
Proof. reflexivity. Qed.

Example extract_no_year :
  extract_title_year "Toy Story" = ("Toy Story", None).
Proof. reflexivity. Qed.

Example extract_short : extract_title_year "()" = ("", Some "(").
Proof. reflexivity. Qed.

Example clean_strangelove : clean "Dr. Strangelove" = "dr strangelove".
Proof. reflexivity. Qed.

Lemma length_append (a b : string) :
  String.length (a +:+ b) = String.length a + String.length b.
Proof. induction a as [|c a IH]; simpl; [reflexivity | now rewrite IH]. Qed.

Lemma contains_append (c : ascii) (a b : string) :
  Py.contains c (a +:+ b) = Py.contains c a || Py.contains c b.
Proof.
  induction a as [|x a IH]; simpl; [reflexivity|].
  destruct (Ascii.eqb x c); [reflexivity | exact IH].
Qed.

Lemma substring_skip (a b : string) (k n : nat) :
  substring (String.length a + k) n (a +:+ b) = substring k n b.
Proof. induction a as [|x a IH]; simpl; [reflexivity | exact IH]. Qed.

Lemma substring_prefix (a b : string) :
  substring 0 (String.length a) (a +:+ b) = a.
Proof.
  induction a as [|x a IH]; simpl.
  - destruct b; reflexivity.
  - now rewrite IH.
Qed.

Lemma substring_whole (a : string) : substring 0 (String.length a) a = a.
Proof. induction a as [|x a IH]; simpl; [reflexivity | now rewrite IH]. Qed.

Lemma before_last_none (c : ascii) (s : string) :
  Py.contains c s = false -> Py.before_last c s = None.
Proof.
  induction s as [|x s IH]; simpl; [reflexivity|].
  destruct (Ascii.eqb x c); [discriminate|].
  intros H. now rewrite (IH H).
Qed.

Lemma before_last_append (c : ascii) (p y : string) :
  Py.contains c y = false ->
  Py.before_last c (p +:+ String c y) = Some p.
Proof.
  intros Hy. induction p as [|x p IH]; simpl.
  - rewrite (before_last_none _ _ Hy). now rewrite Ascii.eqb_refl.
  - now rewrite IH.
Qed.

Lemma before_last_contains (c : ascii) (s : string) :
  Py.contains c s = false <-> Py.before_last c s = None.
Proof.
  split; [apply before_last_none|].
  induction s as [|x s IH]; simpl; [reflexivity|].
  destruct (Py.before_last c s); [discriminate|].
  destruct (Ascii.eqb x c); [discriminate | auto].
Qed.

(** The last six characters of a title that ends in a parenthesised group
    of four characters. *)
Lemma last_chars_paren (p y : string) :
  String.length y = 4 ->
  Py.last_chars 6 (p +:+ "(" +:+ y +:+ ")") = "(" +:+ y +:+ ")".
Proof.
  intros Hy. unfold Py.last_chars, Py.slice.
  rewrite !length_append, Hy. simpl String.length.
  replace (String.length p + (1 + (4 + 1)) - 6) with (String.length p + 0) by lia.
  rewrite substring_skip.
  replace (String.length p + (1 + (4 + 1)) - (String.length p + 0)) with
    (String.length ("(" +:+ y +:+ ")")) by (rewrite !length_append, Hy; simpl; lia).
  apply substring_whole.
Qed.

(** On a title of the shape [p (y)], with [y] four characters free of
    ["("], the parser returns the stripped [p] and [y]. *)
Lemma extract_title_year_paren (p y : string) :
  String.length y = 4 ->
  Py.contains "(" y = false ->
  extract_title_year (p +:+ "(" +:+ y +:+ ")") = (Py.strip p, Some y).
Proof.
  intros Hlen Hy. unfold extract_title_year.
  assert (Hs : String.length (p +:+ "(" +:+ y +:+ ")") = String.length p + 6)
    by (rewrite !length_append, Hlen; simpl; lia).
  assert (Hl5 : Py.last_chars 5 (p +:+ "(" +:+ y +:+ ")") = y +:+ ")").
  { unfold Py.last_chars, Py.slice. rewrite Hs.
    replace (String.length p + 6 - 5) with (String.length p + 1) by lia.
    rewrite substring_skip. simpl.
    replace (String.length p + 6 - (String.length p + 1)) with
      (String.length (y +:+ ")")) by (rewrite length_append, Hlen; simpl; lia).
    apply substring_whole. }
  rewrite Hl5, !contains_append.
  change (Py.contains "(" "(") with true. change (Py.contains ")" ")") with true.
  rewrite !orb_true_r. cbn [andb].
  f_equal.
  - unfold Py.rsplit1_head.
    change ("(" +:+ y +:+ ")") with (String "(" (y +:+ ")")).
    rewrite before_last_append; [reflexivity|].
    rewrite contains_append, Hy. reflexivity.
  - f_equal. unfold Py.slice_from_end, Py.slice. rewrite Hs.
    replace (String.length p + 6 - 5) with (String.length p + 1) by lia.
    rewrite substring_skip.
    replace (String.length p + 6 - 1 - (String.length p + 1)) with
      (String.length y) by lia.
    change (substring 1 (String.length y) ("(" +:+ y +:+ ")")) with
      (substring 0 (String.length y) (y +:+ ")")).
    apply substring_prefix.
Qed.

(** [clean] leaves none of the five punctuation marks and no capital. *)
Lemma contains_remove_same (c : ascii) (s : string) :
  Py.contains c (Py.remove c s) = false.
Proof.
  induction s as [|a s IH]; simpl; [reflexivity|].
  destruct (Ascii.eqb a c) eqn:E; [exact IH|]. simpl. now rewrite E.
Qed.

Lemma contains_remove_other (c d : ascii) (s : string) :
  Py.contains c s = false -> Py.contains c (Py.remove d s) = false.
Proof.
  induction s as [|a s IH]; simpl; [reflexivity|].
  destruct (Ascii.eqb a c) eqn:E; [discriminate|]. intros H.
  destruct (Ascii.eqb a d); simpl; [auto|]. rewrite E. auto.
Qed.

Lemma contains_lstrip (c : ascii) (s : string) :
  Py.contains c s = false -> Py.contains c (Py.lstrip s) = false.
Proof.
  induction s as [|a s IH]; simpl; [reflexivity|].
  destruct (Ascii.eqb a c) eqn:E; [discriminate|]. intros H.
  destruct (Py.isspace a); [auto|]. simpl. now rewrite E.
Qed.

Lemma contains_rstrip (c : ascii) (s : string) :
  Py.contains c s = false -> Py.contains c (Py.rstrip s) = false.
Proof.
  induction s as [|a s IH]; simpl; [reflexivity|].
  destruct (Ascii.eqb a c) eqn:E; [discriminate|]. intros H.
  specialize (IH H). destruct (Py.rstrip s) as [|b r].
  - destruct (Py.isspace a); simpl; [reflexivity|]. now rewrite E.
  - simpl in *. now rewrite E.
Qed.

Lemma contains_strip (c : ascii) (s : string) :
  Py.contains c s = false -> Py.contains c (Py.strip s) = false.
Proof. intros H. apply contains_rstrip, contains_lstrip, H. Qed.

Lemma clean_has_no_punctuation (t : string) :
  Forall (fun c => Py.contains c (clean t) = false)
    [","%char; "'"%char; ":"%char; "-"%char; "."%char].
Proof.
  unfold clean.
  repeat constructor; apply contains_strip;
    repeat first [ apply contains_remove_same
                 | apply contains_remove_other ].
Qed.

Lemma lower_char_not_upper (a : ascii) : is_upper (Py.lower_char a) = false.
Proof.
  destruct a as [[] [] [] [] [] [] [] []]; reflexivity.
Qed.

Lemma contains_lower_capital (c : ascii) (s : string) :
  is_upper c = true -> Py.contains c (Py.lower s) = false.
Proof.
  intros Hc. induction s as [|a s IH]; simpl; [reflexivity|].
  destruct (Ascii.eqb_spec (Py.lower_char a) c) as [E|_]; [|exact IH].
  rewrite <- E, lower_char_not_upper in Hc. discriminate.
Qed.

Lemma clean_has_no_capital (c : ascii) (t : string) :
  is_upper c = true -> Py.contains c (clean t) = false.
Proof.
  intros Hc. unfold clean. apply contains_strip.
  do 5 apply contains_remove_other. apply contains_lower_capital, Hc.
Qed.

(** [max] on a list that is not empty. *)
Lemma max_from_spec {A : Type} (key : A -> Q) (l : list A) (best : A) :
  (Py.max_from key best l = best \/ Py.max_from key best l ∈ l)
  /\ (key best <= key (Py.max_from key best l))%Q
  /\ Forall (fun x => (key x <= key (Py.max_from key best l))%Q) l.
Proof.
  revert best. induction l as [|x l IH]; intros best; simpl.
  - split; [now left|]. split; [apply Qle_refl | constructor].
  - destruct (Qle_bool (key x) (key best)) eqn:E.
    + destruct (IH best) as (Hin & Hb & Hall).
      split; [destruct Hin; [now left | right; now constructor]|].
      split; [exact Hb|]. constructor; [|exact Hall].
      apply Qle_bool_iff in E. eapply Qle_trans; eassumption.
    + destruct (IH x) as (Hin & Hb & Hall).
      split; [right; destruct Hin as [->|Hin]; [constructor | now constructor]|].
      assert (Hlt : (key best < key x)%Q).
      { apply Qnot_le_lt. intros H. apply Qle_bool_iff in H. congruence. }
      split; [|constructor; assumption].
      eapply Qle_trans; [apply Qlt_le_weak, Hlt | exact Hb].
Qed.

Lemma max_by_spec {A : Type} (key : A -> Q) (l : list A) :
  l <> [] ->
  exists best, Py.max_by key l = Some best /\ best ∈ l
               /\ Forall (fun x => (key x <= key best)%Q) l.
Proof.
  destruct l as [|x l]; [congruence|]. intros _. simpl.
  destruct (max_from_spec key l x) as (Hin & Hb & Hall).
  eexists. split; [reflexivity|]. split.
  - destruct Hin as [->|Hin]; [constructor | now constructor].
  - constructor; assumption.
Qed.

(** ** Counting live calls in a record *)

Lemma live_calls_app (l1 l2 : list event) :
  live_calls (l1 ++ l2) = live_calls l1 + live_calls l2.
Proof. unfold live_calls. now rewrite filter_app, length_app. Qed.

Lemma live_calls_cons (e : event) (l : list event) :
  live_calls (e :: l) = (if is_live e then 1 else 0) + live_calls l.
Proof. unfold live_calls. simpl. unfold filter. simpl. destruct (is_live e); reflexivity. Qed.

Lemma accounted_app (base : nat) (l1 l2 : list event) :
  accounted base l2 ->
  accounted (base + live_calls l2) l1 ->
  accounted base (l1 ++ l2).
Proof.
  intros H2. induction l1 as [|e l1 IH]; simpl; [auto|].
  intros [He H1]. split; [|auto].
  intros u Hu. rewrite (He u Hu).
  rewrite !live_calls_cons, live_calls_app. lia.
Qed.

Lemma accounted_at (base : nat) (later earlier : list event) (e : event) (u : nat) :
  accounted base (later ++ e :: earlier) ->
  used_of e = Some u ->
  u = base + live_calls (e :: earlier).
Proof.
  induction later as [|x later IH]; simpl.
  - intros [He _] Hu. exact (He u Hu).
  - intros [_ H]. exact (IH H).
Qed.

Lemma accounted_bound (base : nat) (l : list event) :
  accounted base l ->
  Forall (fun e => forall u, used_of e = Some u -> u <= base + live_calls l) l.
Proof.
  induction l as [|e l IH]; simpl; [constructor|].
  intros [He Hl]. constructor.
  - intros u Hu. rewrite (He u Hu). lia.
  - eapply Forall_impl; [exact (IH Hl)|].
    intros x Hx u Hu. specialize (Hx u Hu). rewrite live_calls_cons. lia.
Qed.

(** ** One row *)

Section Row.

Context {Session : Type}.
Variable session_get : Session -> params -> reply * Session.
Variable ratio : string -> string -> Q.

Abbreviation Cascade := (cascade session_get ratio).
Abbreviation Body := (body session_get ratio).
Abbreviation Loop := (loop session_get ratio).
Abbreviation Run := (run session_get ratio).

Lemma loop_nil (st : state Session) : Loop [] st = Completed st.
Proof. reflexivity. Qed.

Lemma loop_cons (index : nat) (rest : list nat) (st : state Session) :
  Loop (index :: rest) st =
  if MAX_REQUESTS_PER_DAY <=? requests_used st then Completed st
  else match Body index (started index st) with
       | Ok _ st' => Loop rest st'
       | Raise e st' => Aborted index e st'
       end.
Proof. reflexivity. Qed.

Lemma run_state_loop (csv : list csv_row) (w : store) (s : Session) :
  run_state (Run csv w s)
  = loop_state (Loop (range (start_index (progress_json w))
                        (length (read_movies csv))) (initial csv w s)).
Proof. unfold run. simpl movies. destruct (loop _ _ _ _); reflexivity. Qed.

(** Symbolic execution of the body of the loop: every path through
    [cascade] with the state it ends in. *)
Ltac exec :=
  unfold body, cascade, bind, movie_at, fetch,
    set_enrichment, note, fuzzy_log_append, write_progress, ret, raise in *;
  repeat (case_match; simplify_eq/=).

Ltac give_new :=
  lazymatch goal with
  | |- exists new, ?l = new ++ ?old /\ _ =>
      let rec go l :=
        lazymatch l with
        | old => constr:(@nil event)
        | ?e :: ?l' => let r := go l' in constr:(e :: r)
        end in
      let n := go l in exists n
  end.

(** What the body of row [index] does to the state, whether it ends
    normally or raises. *)
Lemma body_summary (index : nat) (st : state Session) :
  exists new,
    events (state_of (Body index st)) = new ++ events st
    /\ requests_used (state_of (Body index st))
        = requests_used st + live_calls new
    /\ accounted (requests_used st) new
    /\ live_calls new <= 3
    /\ Forall (fun e => is_row_start e = false) new
    /\ Forall (fun e => forall i, row_of e = Some i -> i = index) new.
Proof.
  exec; give_new; simpl; unfold live_calls; simpl;
    repeat split; intros; simplify_eq/=; try lia;
    repeat constructor; intros; simplify_eq/=; auto.
Qed.

(** ** The three stages of the lookup *)

(** C5. When the exact query of a row is answered with ["Response":
    "True"], the row's [Director], [Plot] and [BoxOffice] are set from that
    answer, the row ends as resolved at the [continue] of line 110, and the
    exact query is the only call made for the row: the session is left in
    the state right after it and the record gains that one request. *)
Theorem C5_exact_match_ends_the_cascade
  (index : nat) (st : state Session) (row : Movie.t) (title : string)
  (year : option string) (from_cache : bool) (data : Json.t) (s' : Session) :
  movies st !! index = Some row ->
  extract_title_year (Movie.title row) = (title, year) ->
  session_get (session st) (Exact title year) = (Answers from_cache data, s') ->
  found data = true ->
  exists st',
    Cascade index st = Ok Continue st'
    /\ Body index st = Ok tt st'
    /\ movies st' = alter (enrich data) index (movies st)
    /\ movies st' !! index
        = Some (Movie.mk (Movie.movieId row) (Movie.title row) (Movie.genres row)
                  (Json.Director data) (Json.Plot data) (Json.BoxOffice data))
    /\ session st' = s'
    /\ events st'
        = Outcome index ResolvedExact
          :: Requested (Exact title year) (Answers from_cache data)
               (requests_used st') :: events st
    /\ requests_used st' = requests_used st + cost (Answers from_cache data)
    /\ fuzzy_log st' = fuzzy_log st
    /\ progress_file st' = progress_file st.
Proof.
  intros Hrow Hty Hget Hfound. eexists.
  split; [|split].
  - unfold cascade, bind, movie_at, fetch. rewrite Hrow, Hty, Hget, Hfound.
    reflexivity.
  - unfold body, cascade, bind, movie_at, fetch. rewrite Hrow, Hty, Hget, Hfound.
    reflexivity.
  - cbn [movies session events requests_used fuzzy_log progress_file].
    rewrite list_lookup_alter_eq, Hrow.
    destruct from_cache; cbn [cost]; repeat split; try reflexivity; lia.
Qed.

(** C6. [clean] lower-cases its argument and deletes the characters
    [, ' : - .] (and strips white space), so ["Dr. Strangelove"] and
    ["dr strangelove"] are cleaned to the same text. When the exact query
    finds nothing and the title-only query is answered with ["Response":
    "True"], the row is resolved from that answer if the cleaned returned
    title equals the cleaned catalogue title: its [Director], [Plot] and
    [BoxOffice] become those of the title-only answer, its other columns
    stay, and nothing is logged. Otherwise the row's fields stay as they
    are and one entry is appended to [fuzzy_log] whose score is the ratio
    of the two lower-cased titles. *)
Theorem C6_title_only_comparison
  (index : nat) (st : state Session) (row : Movie.t) (title : string)
  (year : option string) (c1 c2 : bool) (d1 d2 : Json.t) (s1 s2 : Session) :
  movies st !! index = Some row ->
  extract_title_year (Movie.title row) = (title, year) ->
  session_get (session st) (Exact title year) = (Answers c1 d1, s1) ->
  found d1 = false ->
  session_get s1 (TitleOnly title) = (Answers c2 d2, s2) ->
  found d2 = true ->
  clean "Dr. Strangelove" = clean "dr strangelove"
  /\ (forall t c, c ∈ [","%char; "'"%char; ":"%char; "-"%char; "."%char]
                  \/ is_upper c = true ->
                  Py.contains c (clean t) = false)
  /\ (clean (default "" (Json.Title d2)) = clean title ->
      exists st',
        Cascade index st = Ok Continue st'
        /\ movies st' = alter (enrich d2) index (movies st)
        /\ movies st' !! index
           = Some (Movie.mk (Movie.movieId row) (Movie.title row)
                     (Movie.genres row) (Json.Director d2) (Json.Plot d2)
                     (Json.BoxOffice d2))
        /\ fuzzy_log st' = fuzzy_log st
        /\ head (events st') = Some (Outcome index ResolvedTitleOnly))
  /\ (clean (default "" (Json.Title d2)) <> clean title ->
      exists st',
        let e := {| CSV_Title := title;
                    Suggested_Match := default "" (Json.Title d2);
                    entry_Year := Json.Year d2;
                    Score := ratio (Py.lower title)
                               (Py.lower (default "" (Json.Title d2))) |} in
        Cascade index st = Ok EndOfBody st'
        /\ movies st' = movies st
        /\ fuzzy_log st' = fuzzy_log st ++ [e]
        /\ head (events st') = Some (Outcome index (MismatchLogged e))).
Proof.
  intros Hrow Hty H1 Hnf H2 Hf.
  split; [reflexivity|]. split; [|split].
  - intros t c [Hc|Hc]; [|apply clean_has_no_capital, Hc].
    pose proof (clean_has_no_punctuation t) as Hp.
    rewrite Forall_forall in Hp. apply Hp, Hc.
  - intros Heq. eexists. split.
    + unfold cascade, bind, movie_at, fetch.
      rewrite Hrow, Hty, H1, Hnf. cbn [session]. rewrite H2, Hf.
      apply String.eqb_eq in Heq. rewrite Heq. reflexivity.
    + cbn [movies fuzzy_log events]. split; [reflexivity|].
      split; [|split; reflexivity].
      rewrite list_lookup_alter_eq, Hrow. reflexivity.
  - intros Hne. eexists. split.
    + unfold cascade, bind, movie_at, fetch.
      rewrite Hrow, Hty, H1, Hnf. cbn [session]. rewrite H2, Hf.
      apply String.eqb_neq in Hne. rewrite Hne. reflexivity.
    + repeat split.
Qed.

(** The first call made for a row is the exact query with the title and the
    year that the parser returned. *)
Lemma body_first_request (index : nat) (st : state Session) (row : Movie.t)
  (title : string) (year : option string) :
  movies st !! index = Some row ->
  extract_title_year (Movie.title row) = (title, year) ->
  exists new u,
    events (state_of (Body index st))
    = new ++ Requested (Exact title year)
               (session_get (session st) (Exact title year)).1 u :: events st.
Proof.
  intros Hrow Hty. unfold body, cascade, bind, movie_at, fetch.
  rewrite Hrow, Hty.
  unfold set_enrichment, note, fuzzy_log_append, write_progress, ret, raise.
  repeat (case_match; simplify_eq/=);
    first [ exists []; eexists; reflexivity
          | eexists [_]; eexists; reflexivity
          | eexists [_; _]; eexists; reflexivity
          | eexists [_; _; _]; eexists; reflexivity
          | eexists [_; _; _; _]; eexists; reflexivity
          | eexists [_; _; _; _; _]; eexists; reflexivity ].
Qed.

(** The two branches of the parser. On a title that ends in a
    parenthesised group of four characters (a year, or any four characters
    other than ["("]), it returns the text before that group, stripped, and
    the four characters. It returns the title itself and [None] exactly when
    the guard of line 63 fails, and the exact query of such a row is then
    made with the year [None]. *)
Lemma extract_title_year_branches :
  (forall p y : string,
      String.length y = 4 -> Py.contains "(" y = false ->
      extract_title_year (p +:+ "(" +:+ y +:+ ")") = (Py.strip p, Some y))
  /\ (forall full_title : string,
        Py.contains "(" full_title = false
        \/ Py.contains ")" (Py.last_chars 5 full_title) = false
        <-> extract_title_year full_title = (full_title, None))
  /\ (forall (index : nat) (st : state Session) (row : Movie.t),
        movies st !! index = Some row ->
        extract_title_year (Movie.title row) = (Movie.title row, None) ->
        exists new u,
          events (state_of (Body index st))
          = new ++ Requested (Exact (Movie.title row) None)
                     (session_get (session st) (Exact (Movie.title row) None)).1 u
                   :: events st).
Proof.
  split; [exact extract_title_year_paren|]. split.
  - intros full_title. unfold extract_title_year. split.
    + intros [-> | ->]; [reflexivity | now rewrite andb_false_r].
    + destruct (Py.contains "(" full_title); [|now left].
      destruct (Py.contains ")" (Py.last_chars 5 full_title)); [|now right].
      discriminate.
  - intros index st row Hrow Hty. exact (body_first_request index st row _ _ Hrow Hty).
Qed.

(** ** The rows and the progress file *)

(** The body of row [index] either leaves [movies] as it is and records no
    resolved outcome, or it ends at one of the two resolved branches, having
    set the fields of row [index] from an answer. *)
Lemma body_movies (index : nat) (st : state Session) :
  exists new,
    events (state_of (Body index st)) = new ++ events st
    /\ ((movies (state_of (Body index st)) = movies st
         /\ Forall (fun e => is_resolved e = false) new)
        \/ (exists d o rest,
              movies (state_of (Body index st))
              = alter (enrich d) index (movies st)
              /\ new = Outcome index o :: rest
              /\ resolved o = true
              /\ Forall (fun e => is_outcome e = false) rest)).
Proof.
  exec; give_new; split; try reflexivity;
    first [ left; split; [reflexivity | repeat constructor]
          | right; do 3 eexists; split; [reflexivity|];
            split; [reflexivity|]; split; [reflexivity | repeat constructor] ].
Qed.

(** A body that ends normally has left the progress file alone or has
    written its own index into it. *)
Lemma body_progress (index : nat) (st : state Session) :
  progress_file (state_of (Body index st)) = progress_file st
  \/ ((exists st', Body index st = Ok tt st')
      /\ progress_file (state_of (Body index st))
         = Some {| last_index := Some index |}).
Proof.
  exec; first [ left; reflexivity | right; split; [eexists|]; reflexivity ].
Qed.

(** A body that raises has, since it was entered, only made requests: the
    last of them is the one that failed when the exception is a
    [RequestException]. *)
Lemma body_abort (index : nat) (st : state Session) (e : exn)
  (st' : state Session) :
  Body index st = Raise e st' ->
  movies st' = movies st
  /\ progress_file st' = progress_file st
  /\ fuzzy_log st' = fuzzy_log st
  /\ exists new,
       events st' = new ++ events st
       /\ Forall (fun e => is_request e = true) new
       /\ requests_used st' = requests_used st + live_calls new
       /\ (e = RequestException ->
           exists p r rest,
             new = Requested p r (requests_used st') :: rest
             /\ failed r = true).
Proof.
  exec; intros; simplify_eq/=; repeat split; give_new;
    unfold live_calls; simpl;
    (split; [reflexivity|]); (split; [repeat constructor|]);
    (split; [lia|]); intros; simplify_eq;
    do 3 eexists; split; reflexivity.
Qed.

(** Over a loop that visits no index twice: the record only grows, by
    events of the visited rows; a row without a resolved outcome among the
    new events is as it was; and so is a row with an outcome that is not a
    resolved one. *)
Lemma loop_movies (indices : list nat) (st : state Session) :
  NoDup indices ->
  exists new,
    events (loop_state (Loop indices st)) = new ++ events st
    /\ Forall (fun e => forall i, row_of e = Some i -> i ∈ indices) new
    /\ (forall j,
          Forall (fun e => row_of e = Some j -> is_resolved e = false) new ->
          movies (loop_state (Loop indices st)) !! j = movies st !! j)
    /\ (forall j o,
          Outcome j o ∈ new -> resolved o = false ->
          movies (loop_state (Loop indices st)) !! j = movies st !! j).
Proof.
  revert st. induction indices as [|i rest IH]; intros st Hnd.
  { exists []. repeat split; auto; intros j o H; inversion H. }
  apply NoDup_cons in Hnd as [Hi Hnd]. rewrite loop_cons.
  destruct (MAX_REQUESTS_PER_DAY <=? requests_used st).
  { exists []. repeat split; auto; intros j o H; inversion H. }
  destruct (body_summary i (started i st))
    as (nb & Hev & _ & _ & _ & _ & Hrows).
  destruct (body_movies i (started i st)) as (nb' & Hev' & Hmov).
  assert (nb' = nb) as -> by (rewrite Hev in Hev'; eapply app_inv_tail, eq_sym, Hev').
  clear Hev'. cbn [started events movies] in Hev, Hmov.
  set (start := RowStarted i (requests_used st)) in *.
  (* the facts about the body alone *)
  assert (Hbody_rows :
            Forall (fun e => forall k, row_of e = Some k -> k = i) (nb ++ [start])).
  { apply Forall_app. split; [exact Hrows|]. repeat constructor.
    intros k [= <-]. reflexivity. }
  assert (Hbody_keep :
            forall j, Forall (fun e => row_of e = Some j -> is_resolved e = false) nb ->
                      movies (state_of (Body i (started i st))) !! j = movies st !! j).
  { intros j Hj. destruct Hmov as [[-> _]|(d & o & r & -> & -> & Ho & _)];
      [reflexivity|].
    destruct (decide (i = j)) as [<-|Hne]; [|now apply list_lookup_alter_ne].
    apply Forall_cons in Hj as [Hj _]. specialize (Hj eq_refl). simpl in Hj.
    congruence. }
  assert (Hbody_out :
            forall j o, Outcome j o ∈ nb -> resolved o = false ->
                        j = i /\ movies (state_of (Body i (started i st))) = movies st).
  { intros j o Hin Ho. split.
    - rewrite Forall_forall in Hrows. exact (Hrows _ Hin j eq_refl).
    - destruct Hmov as [[-> _]|(d & o' & r & _ & -> & Ho' & Hr)]; [reflexivity|].
      apply elem_of_cons in Hin as [[= -> ->]|Hin]; [congruence|].
      rewrite Forall_forall in Hr. specialize (Hr _ Hin). discriminate. }
  destruct (Body i (started i st)) as [[] st1|e st1]; cbn [state_of] in *.
  - destruct (IH st1 Hnd) as (nr & Hevr & Hrowsr & Hkeep & Hout).
    exists (nr ++ nb ++ [start]).
    split; [rewrite Hevr, Hev, <- !app_assoc; reflexivity|].
    split; [|split].
    + apply Forall_app. split.
      * eapply Forall_impl; [exact Hrowsr|]. intros e He k Hk.
        apply elem_of_cons. right. exact (He k Hk).
      * eapply Forall_impl; [exact Hbody_rows|]. intros e He k Hk.
        apply elem_of_cons. left. exact (He k Hk).
    + intros j Hj. apply Forall_app in Hj as [Hjr Hjb].
      apply Forall_app in Hjb as [Hjb _].
      rewrite (Hkeep j Hjr). exact (Hbody_keep j Hjb).
    + intros j o Hin Ho. apply elem_of_app in Hin as [Hin|Hin].
      * rewrite (Hout j o Hin Ho). apply Hbody_keep.
        apply Forall_forall. intros e He Hrow.
        rewrite Forall_forall in Hrowsr, Hrows.
        pose proof (Hrowsr _ Hin j eq_refl) as Hjrest.
        pose proof (Hrows _ He j Hrow) as ->. contradiction.
      * apply elem_of_app in Hin as [Hin|Hin].
        -- destruct (Hbody_out j o Hin Ho) as [-> Hsame].
           rewrite <- Hsame. apply Hkeep.
           apply Forall_forall. intros e He Hrow.
           rewrite Forall_forall in Hrowsr.
           pose proof (Hrowsr _ He i Hrow). contradiction.
        -- apply list_elem_of_singleton in Hin. discriminate.
  - cbn [loop_state]. exists (nb ++ [start]).
    split; [rewrite Hev, <- app_assoc; reflexivity|].
    split; [|split].
    + eapply Forall_impl; [exact Hbody_rows|]. intros e' He k Hk.
      apply elem_of_cons. left. exact (He k Hk).
    + intros j Hj. apply Forall_app in Hj as [Hjb _]. exact (Hbody_keep j Hjb).
    + intros j o Hin Ho. apply elem_of_app in Hin as [Hin|Hin].
      * destruct (Hbody_out j o Hin Ho) as [_ ->]. reflexivity.
      * apply list_elem_of_singleton in Hin. discriminate.
Qed.

Lemma read_movies_blank (csv : list csv_row) (j : nat) (m : Movie.t) :
  read_movies csv !! j = Some m ->
  Movie.Director m = None /\ Movie.Plot m = None /\ Movie.BoxOffice m = None.
Proof.
  unfold read_movies. rewrite list_lookup_fmap.
  destruct (csv !! j); intros [= <-]. auto.
Qed.

(** C9. At the end of any run, the row of every index whose outcome is not
    a resolved one (a logged mismatch, a logged fuzzy suggestion, nothing
    found) is still the row read from the CSV file, with [Director], [Plot]
    and [BoxOffice] equal to [None]; the same holds of every row for which
    no resolved outcome was recorded at all, so a row differs from the one
    read only if one of the two resolved branches was taken for it; outcomes
    are recorded only for indices of [range(start_index, len(movies))], and
    the rows outside that range are never changed. *)
Theorem C9_rows_change_only_when_resolved (csv : list csv_row) (w : store) (s : Session) :
  let st := run_state (Run csv w s) in
  (forall j o, Outcome j o ∈ events st -> resolved o = false ->
               movies st !! j = read_movies csv !! j)
  /\ (forall j, (forall o, Outcome j o ∈ events st -> resolved o = false) ->
                movies st !! j = read_movies csv !! j)
  /\ (forall j o, Outcome j o ∈ events st ->
                  start_index (progress_json w) <= j < length csv)
  /\ (forall j, ~ (start_index (progress_json w) <= j < length csv) ->
                movies st !! j = read_movies csv !! j)
  /\ (forall j m, read_movies csv !! j = Some m ->
                  Movie.Director m = None /\ Movie.Plot m = None
                  /\ Movie.BoxOffice m = None).
Proof.
  intros st. subst st. rewrite run_state_loop.
  set (start := start_index (progress_json w)).
  assert (Hlen : length (read_movies csv) = length csv)
    by (unfold read_movies; apply length_fmap).
  destruct (loop_movies (range start (length (read_movies csv))) (initial csv w s))
    as (new & Hev & Hrows & Hkeep & Hout); [apply NoDup_seq|].
  cbn [initial events movies] in Hev, Hkeep, Hout.
  rewrite app_nil_r in Hev. rewrite Hev.
  assert (Hrange : forall j o, Outcome j o ∈ new -> start <= j < length csv).
  { intros j o Hin. rewrite Forall_forall in Hrows.
    pose proof (Hrows _ Hin j eq_refl) as Hj. unfold range in Hj.
    apply elem_of_seq in Hj. lia. }
  assert (Hnone : forall j, (forall o, Outcome j o ∈ new -> resolved o = false) ->
                            Forall (fun e => row_of e = Some j -> is_resolved e = false) new).
  { intros j Hj. apply Forall_forall. intros [i u|p r u|i o|i] He; simpl; auto.
    intros [= ->]. exact (Hj o He). }
  split; [exact Hout|]. split; [|split; [exact Hrange|split]].
  - intros j Hj. apply Hkeep, Hnone, Hj.
  - intros j Hj. apply Hkeep, Hnone. intros o Hin.
    destruct Hj. exact (Hrange j o Hin).
  - apply read_movies_blank.
Qed.

(** ** A run that [session.get] ends *)

(** Over [range(a, a + n)]: the loop is aborted only at an index [i] of
    the range, in the body of that row. The progress file then is the one
    the loop started with or names an index visited before; the record
    consists of the events of the rows before [i], the start of row [i] and
    the requests made for row [i]. *)
Lemma loop_abort (n a : nat) (st : state Session) (i : nat) (e : exn)
  (st' : state Session) :
  Loop (seq a n) st = Aborted i e st' ->
  a <= i < a + n
  /\ (progress_file st' = progress_file st
      \/ exists k, a <= k < i /\ progress_file st' = Some {| last_index := Some k |})
  /\ exists nb u mid,
      events st' = nb ++ RowStarted i u :: mid ++ events st
      /\ u < MAX_REQUESTS_PER_DAY
      /\ Forall (fun e => forall k, row_of e = Some k -> a <= k < i) mid
      /\ Forall (fun e => is_request e = true) nb
      /\ requests_used st' = u + live_calls nb
      /\ (e = RequestException ->
          exists p r rest,
            nb = Requested p r (requests_used st') :: rest
            /\ failed r = true).
Proof.
  revert a st. induction n as [|n IH]; intros a st; [discriminate|].
  cbn [seq]. rewrite loop_cons.
  destruct (MAX_REQUESTS_PER_DAY <=? requests_used st) eqn:Hmax; [discriminate|].
  apply Nat.leb_gt in Hmax.
  pose proof (body_progress a (started a st)) as Hp.
  destruct (body_summary a (started a st))
    as (nb1 & Hev1 & _ & _ & _ & _ & Hrows1).
  destruct (Body a (started a st)) as [[] st1|e1 st1] eqn:Hb;
    cbn [state_of started events] in Hp, Hev1.
  - intros Hl.
    destruct (IH _ _ Hl) as (Hi & Hpr & nb & u & mid & Hev & Hu & Hmid & Hrest).
    split; [lia|]. split.
    + destruct Hpr as [->|(k & Hk & ->)].
      * destruct Hp as [->|[_ ->]]; [now left|].
        right. exists a. split; [lia|reflexivity].
      * right. exists k. split; [lia|reflexivity].
    + exists nb, u, (mid ++ nb1 ++ [RowStarted a (requests_used st)]).
      split; [rewrite Hev, Hev1, <- !app_assoc; reflexivity|].
      split; [exact Hu|]. split; [|exact Hrest].
      apply Forall_app. split.
      * eapply Forall_impl; [exact Hmid|]. intros x Hx k Hk.
        specialize (Hx k Hk). lia.
      * apply Forall_app. split.
        -- eapply Forall_impl; [exact Hrows1|]. intros x Hx k Hk.
           rewrite (Hx k Hk). lia.
        -- repeat constructor; injection H as <-; lia.
  - intros [= <- <- <-]. split; [lia|].
    destruct (body_abort _ _ _ _ Hb) as (_ & Hpf & _ & nb & Hev & Hreq & Hused & Hlast).
    cbn [started progress_file events requests_used] in Hpf, Hev, Hused.
    split; [left; exact Hpf|].
    exists nb, (requests_used st), []. repeat split; auto.
Qed.

(** Every index of the range is reached by the loop unless the loop is
    aborted at an earlier index or left by [break]. *)
Lemma loop_reaches (n a : nat) (st : state Session) (i : nat) :
  a <= i < a + n ->
  (exists u, RowStarted i u ∈ events (loop_state (Loop (seq a n) st)))
  \/ (exists j e st', Loop (seq a n) st = Aborted j e st' /\ j < i)
  \/ MAX_REQUESTS_PER_DAY <= requests_used (loop_state (Loop (seq a n) st)).
Proof.
  revert a st. induction n as [|n IH]; intros a st Hi; [lia|].
  cbn [seq]. rewrite loop_cons.
  destruct (MAX_REQUESTS_PER_DAY <=? requests_used st) eqn:Hmax.
  { right. right. apply Nat.leb_le in Hmax. exact Hmax. }
  destruct (body_summary a (started a st)) as (nb & Hev & _).
  destruct (loop_movies (seq (S a) n) (state_of (Body a (started a st))))
    as (nr & Hevr & _); [apply NoDup_seq|].
  destruct (Body a (started a st)) as [[] st1|e1 st1] eqn:Hb; cbn [state_of] in *.
  - destruct (decide (i = a)) as [->|Hne].
    + left. exists (requests_used st). rewrite Hevr, Hev.
      apply elem_of_app. right. apply elem_of_app. right. constructor.
    + destruct (IH (S a) st1 ltac:(lia)) as [H|[(j & e & st' & Hl & Hj)|H]].
      * left. exact H.
      * right. left. exists j, e, st'. auto.
      * right. right. exact H.
  - destruct (decide (i = a)) as [->|Hne].
    + left. exists (requests_used st). cbn [loop_state]. rewrite Hev.
      apply elem_of_app. right. constructor.
    + right. left. exists a, e1, st1. split; [reflexivity|lia].
Qed.

(** The loop over a list of indices in two parts. *)
Lemma loop_app (l1 l2 : list nat) (st st1 : state Session) :
  Loop l1 st = Completed st1 -> Loop (l1 ++ l2) st = Loop l2 st1.
Proof.
  revert st. induction l1 as [|i l1 IH]; intros st.
  - intros [= ->]. reflexivity.
  - cbn [app]. rewrite !loop_cons.
    destruct (MAX_REQUESTS_PER_DAY <=? requests_used st) eqn:Hmax.
    + intros [= <-]. destruct l2 as [|j l2]; [reflexivity|].
      rewrite loop_cons, Hmax. reflexivity.
    + destruct (Body i (started i st)) as [[] st2|e st2]; [apply IH | discriminate].
Qed.

(** When [session.get] raises at one of the calls of a row, the body of the
    row raises there: the raising call is the last step. *)
Lemma body_transport_failure (index : nat) (st : state Session) (row : Movie.t)
  (title : string) (year : option string) :
  movies st !! index = Some row ->
  extract_title_year (Movie.title row) = (title, year) ->
  transport_fails session_get (session st) title year ->
  exists st' p rest,
    Body index st = Raise RequestException st'
    /\ events st' = Requested p Raises (requests_used st') :: rest ++ events st.
Proof.
  intros Hrow Hty
    [(s1 & H1)
    |[(c1 & d1 & s1 & s2 & H1 & Hn1 & H2)
     |(c1 & d1 & s1 & c2 & d2 & s2 & s3 & H1 & Hn1 & H2 & Hn2 & H3)]];
    unfold body, cascade, bind, movie_at, fetch; rewrite Hrow, Hty, H1.
  - eexists _, _, []. split; reflexivity.
  - rewrite Hn1. cbn [session]. rewrite H2.
    eexists _, _, [_]. split; reflexivity.
  - rewrite Hn1. cbn [session]. rewrite H2, Hn2. cbn [session]. rewrite H3.
    eexists _, _, [_; _]. split; reflexivity.
Qed.

(** A run that ends with a [RequestException] ended in the body of a row
    [i], at a call that failed; nothing after the loop was run, and the
    progress file was not written for row [i] or a later one. *)
Lemma crash_summary
  (csv : list csv_row) (w : store) (s : Session) (i : nat)
  (st' : state Session) (w' : store) :
  Run csv w s = Crashed i RequestException st' w' ->
  (exists p r rest u earlier,
      events st'
      = Requested p r (requests_used st') :: rest
        ++ RowStarted i u :: earlier
      /\ failed r = true
      /\ Forall (fun e => is_request e = true) rest
      /\ requests_used st'
         = u + live_calls (Requested p r (requests_used st') :: rest)
      /\ Forall (fun e => forall k, row_of e = Some k -> k < i) earlier)
  /\ (forall o, Outcome i o ∉ events st')
  /\ (forall k, ProgressWritten k ∈ events st' -> k < i)
  /\ progress_json w' = progress_file st'
  /\ (progress_json w' = progress_json w
      \/ exists k, k < i /\ progress_json w' = Some {| last_index := Some k |})
  /\ fuzzy_matches_json w' = fuzzy_matches_json w
  /\ movie_table w' = movie_table w
  /\ start_index (progress_json w') <= i < length csv
  /\ i ∈ range (start_index (progress_json w')) (length csv)
  /\ (forall s2,
        (exists u, RowStarted i u ∈ events (run_state (Run csv w' s2)))
        \/ (exists j e st2 w2, Run csv w' s2 = Crashed j e st2 w2 /\ j < i)
        \/ MAX_REQUESTS_PER_DAY <= requests_used (run_state (Run csv w' s2))).
Proof.
  intros Hrun. unfold run in Hrun.
  assert (Hlen : length (read_movies csv) = length csv)
    by (unfold read_movies; apply length_fmap).
  cbn [initial movies] in Hrun. rewrite Hlen in Hrun.
  destruct (loop _ _ _ _) as [st1|i1 e1 st1] eqn:Hloop; [discriminate|].
  injection Hrun as -> -> -> <-. cbn [progress_json fuzzy_matches_json movie_table].
  unfold range in Hloop.
  destruct (loop_abort _ _ _ _ _ _ Hloop)
    as (Hi & Hpr & nb & u & mid & Hev & Hu & Hmid & Hreq & Hused & Hlast).
  destruct (Hlast eq_refl) as (p & r & rest & -> & Hfail).
  cbn [initial events progress_file] in Hev, Hpr. rewrite app_nil_r in Hev.
  pose proof Hused as Hused'.
  apply Forall_cons in Hreq as [_ Hreq].
  assert (Hearlier : Forall (fun e => forall k, row_of e = Some k -> k < i) mid).
  { eapply Forall_impl; [exact Hmid|]. intros x Hx k Hk. specialize (Hx k Hk). lia. }
  assert (Hnew : forall e, e ∈ events st' ->
                 is_request e = true \/ (exists u', e = RowStarted i u')
                 \/ (forall k, row_of e = Some k -> k < i)).
  { intros e He. rewrite Hev in He.
    apply elem_of_cons in He as [->|He]; [now left|].
    apply elem_of_app in He as [He|He].
    - left. rewrite Forall_forall in Hreq. exact (Hreq _ He).
    - apply elem_of_cons in He as [->|He]; [right; left; eauto|].
      right. right. rewrite Forall_forall in Hearlier. exact (Hearlier _ He). }
  assert (Hstart : start_index (progress_file st') <= i).
  { destruct Hpr as [->|(k & Hk & ->)]; [lia|]. simpl. lia. }
  split.
  { exists p, r, rest, u, mid. split; [exact Hev|]. split; [exact Hfail|].
    split; [exact Hreq|]. split; [exact Hused' | exact Hearlier]. }
  split.
  { intros o Ho. destruct (Hnew _ Ho) as [H|[[u' H]|H]]; try discriminate.
    specialize (H i eq_refl). lia. }
  split.
  { intros k Hk. destruct (Hnew _ Hk) as [H|[[u' H]|H]]; try discriminate.
    exact (H k eq_refl). }
  split; [reflexivity|]. split.
  { destruct Hpr as [->|(k & Hk & ->)]; [now left|].
    right. exists k. split; [lia|reflexivity]. }
  split; [reflexivity|]. split; [reflexivity|]. split; [lia|]. split.
  { unfold range. apply elem_of_seq. lia. }
  intros s2. rewrite run_state_loop. rewrite Hlen. cbn [progress_json].
  unfold range.
  destruct (loop_reaches (length csv - start_index (progress_file st'))
              (start_index (progress_file st'))
              (initial csv
                 {| progress_json := progress_file st';
                    fuzzy_matches_json := fuzzy_matches_json w;
                    movie_table := movie_table w |} s2) i ltac:(lia))
    as [H|[(j & e & st2 & Hl & Hj)|H]].
  - left. exact H.
  - right. left. exists j, e, st2. eexists. split; [|exact Hj].
    unfold run. cbn [initial movies progress_json]. rewrite Hlen.
    unfold range. cbn [initial progress_json] in Hl. rewrite Hl. reflexivity.
  - right. right. exact H.
Qed.

(** C8. When [session.get] raises at a call of row [i] (the transport has
    given up: at the exact query, or at a later query of the cascade), the
    script ends there with that exception, in the body of row [i]. Here the
    loop has reached row [i] below the request limit, in the state [st_i]
    that the rows before it left. Since row [i] was started only requests
    were made, and the raising one is the last step of the run: no outcome
    is recorded for row [i], the raising call leaves [requests_used] as it
    was and no call follows it. Nothing after the loop is run, so the fuzzy
    log file and the table are as before. The progress file was not written
    for row [i] or a later one: it is unchanged or names an index below
    [i], so the index the next run starts at is at most [i], row [i] is in
    the range of the next run, and the next run starts row [i] again unless
    it is itself aborted at an earlier row or leaves the loop at the
    request limit. *)
Theorem C8_request_exception_stops_the_run
  (csv : list csv_row) (w : store) (s : Session) (before after : list nat)
  (i : nat) (st_i : state Session) (row : Movie.t) :
  range (start_index (progress_json w)) (length csv) = before ++ i :: after ->
  Loop before (initial csv w s) = Completed st_i ->
  requests_used st_i < MAX_REQUESTS_PER_DAY ->
  movies st_i !! i = Some row ->
  transport_fails session_get (session st_i)
    (extract_title_year (Movie.title row)).1
    (extract_title_year (Movie.title row)).2 ->
  exists st' w',
    Run csv w s = Crashed i RequestException st' w'
    /\ (exists p rest u earlier,
          events st'
          = Requested p Raises (requests_used st') :: rest
            ++ RowStarted i u :: earlier
          /\ Forall (fun e => is_request e = true) rest
          /\ requests_used st' = u + live_calls rest
          /\ Forall (fun e => forall k, row_of e = Some k -> k < i) earlier)
    /\ (forall o, Outcome i o ∉ events st')
    /\ (forall k, ProgressWritten k ∈ events st' -> k < i)
    /\ progress_json w' = progress_file st'
    /\ (progress_json w' = progress_json w
        \/ exists k, k < i /\ progress_json w' = Some {| last_index := Some k |})
    /\ fuzzy_matches_json w' = fuzzy_matches_json w
    /\ movie_table w' = movie_table w
    /\ start_index (progress_json w') <= i < length csv
    /\ i ∈ range (start_index (progress_json w')) (length csv)
    /\ (forall s2,
          (exists u, RowStarted i u ∈ events (run_state (Run csv w' s2)))
          \/ (exists j e st2 w2, Run csv w' s2 = Crashed j e st2 w2 /\ j < i)
          \/ MAX_REQUESTS_PER_DAY <= requests_used (run_state (Run csv w' s2))).
Proof.
  intros Hrange Hbefore Hlt Hrow Hfails.
  destruct (body_transport_failure i (started i st_i) row _ _ Hrow
              (surjective_pairing _) Hfails)
    as (st' & p & rest & Hbody & Hev).
  assert (Hlen : length (read_movies csv) = length csv)
    by (unfold read_movies; apply length_fmap).
  assert (Hloop : Loop (range (start_index (progress_json w))
                          (length (movies (initial csv w s))))
                    (initial csv w s)
                  = Aborted i RequestException st').
  { change (movies (initial csv w s)) with (read_movies csv).
    rewrite Hlen, Hrange, (loop_app _ _ _ _ Hbefore), loop_cons.
    apply Nat.leb_gt in Hlt. rewrite Hlt, Hbody. reflexivity. }
  assert (Hrun : Run csv w s
                 = Crashed i RequestException st'
                     {| progress_json := progress_file st';
                        fuzzy_matches_json := fuzzy_matches_json w;
                        movie_table := movie_table w |}).
  { unfold run. rewrite Hloop. reflexivity. }
  eexists _, _. split; [exact Hrun|].
  destruct (crash_summary _ _ _ _ _ _ Hrun)
    as ((p0 & r0 & rest0 & u & earlier & Hev0 & _ & Hreq & Hused & Hearlier)
        & Hothers).
  split; [|exact Hothers].
  assert (Hr : r0 = Raises) by (rewrite Hev in Hev0; congruence).
  subst r0. exists p0, rest0, u, earlier.
  split; [exact Hev0|]. split; [exact Hreq|]. split; [|exact Hearlier].
  rewrite live_calls_cons in Hused. exact Hused.
Qed.

(** ** The exceptions of a run *)

Lemma body_length (index : nat) (st : state Session) :
  length (movies (state_of (Body index st))) = length (movies st).
Proof. exec; rewrite ?length_alter; reflexivity. Qed.

Lemma body_raises (index : nat) (st : state Session) (e : exn)
  (st' : state Session) :
  search_answers_nonempty session_get ->
  index < length (movies st) ->
  Body index st = Raise e st' ->
  e = RequestException.
Proof.
  intros Hpre Hlt Hb.
  assert (Hsome : is_Some (movies st !! index)) by now apply lookup_lt_is_Some.
  destruct Hsome as [row Hrow].
  revert Hb. exec; intros; simplify_eq/=; try reflexivity;
    match goal with
    | H : session_get _ (SearchBy _) = (Answers _ ?d, _), F : found ?d = true |- _ =>
        destruct (Hpre _ _ _ _ _ H F) as (? & ? & ?); simplify_eq/=
    end.
Qed.

Lemma loop_raises (indices : list nat) (st : state Session) (i : nat) (e : exn)
  (st' : state Session) :
  search_answers_nonempty session_get ->
  Forall (fun j => j < length (movies st)) indices ->
  Loop indices st = Aborted i e st' ->
  e = RequestException.
Proof.
  intros Hpre. revert st. induction indices as [|index rest IH]; intros st Hin.
  - discriminate.
  - rewrite loop_cons. apply Forall_cons in Hin as [Hi Hrest].
    destruct (MAX_REQUESTS_PER_DAY <=? requests_used st); [discriminate|].
    pose proof (body_length index (started index st)) as Hlen.
    destruct (Body index (started index st)) as [[] st1|e1 st1] eqn:Hb.
    + simpl in Hlen. apply IH. now rewrite Hlen.
    + intros [= _ -> _]. eapply body_raises; [exact Hpre | | exact Hb]. exact Hi.
Qed.

Lemma range_lt (start stop : nat) : Forall (fun j => j < stop) (range start stop).
Proof.
  unfold range. apply Forall_forall. intros j Hj.
  apply elem_of_seq in Hj. lia.
Qed.

(** C10. [max] has a result exactly on a list that is not empty, and then
    it is an element of the list with the greatest key. So, when every
    search answer with ["Response": "True"] carries a ["Search"] list that is
    not empty, no run ends with the [ValueError] of [max] (the only
    exception a run can end with is a [RequestException]); and a
    row whose search answer has ["Response": "True"] with an empty
    ["Search"] list ends the run with that [ValueError]. *)
Theorem C10_fuzzy_selection_needs_a_candidate :
  (forall (key : candidate -> Q) (search : list candidate),
      (search <> [] ->
       exists best, Py.max_by key search = Some best /\ best ∈ search
                    /\ Forall (fun m => (key m <= key best)%Q) search)
      /\ (search = [] -> Py.max_by key search = None))
  /\ (search_answers_nonempty session_get ->
      forall csv w s i e st w',
        Run csv w s = Crashed i e st w' -> e = RequestException)
  /\ (forall index st row title year c1 c2 c3 d1 d2 d3 s1 s2 s3,
        movies st !! index = Some row ->
        extract_title_year (Movie.title row) = (title, year) ->
        session_get (session st) (Exact title year) = (Answers c1 d1, s1) ->
        found d1 = false ->
        session_get s1 (TitleOnly title) = (Answers c2 d2, s2) ->
        found d2 = false ->
        session_get s2 (SearchBy title) = (Answers c3 d3, s3) ->
        found d3 = true ->
        Json.Search d3 = Some [] ->
        exists st', Body index st = Raise ValueError st').
Proof.
  split; [|split].
  - intros key search. split; [apply max_by_spec | now intros ->].
  - intros Hpre csv w s i e st w' Hrun. unfold run in Hrun.
    destruct (loop _ _ _ _) as [st1|i1 e1 st1] eqn:Hloop; [discriminate|].
    injection Hrun as -> -> -> _.
    eapply loop_raises; [exact Hpre | | exact Hloop].
    apply range_lt.
  - intros * Hrow Hty H1 Hn1 H2 Hn2 H3 Hf3 Hs. eexists.
    unfold body, cascade, bind, movie_at, fetch.
    rewrite Hrow, Hty, H1, Hn1. cbn [session]. rewrite H2, Hn2.
    cbn [session]. rewrite H3, Hf3. cbn [raise]. rewrite Hs. reflexivity.
Qed.

(** ** The request counter over a run *)

Lemma counted_body (index : nat) (st : state Session) :
  counted st ->
  requests_used st < MAX_REQUESTS_PER_DAY ->
  counted (state_of (Body index (started index st))).
Proof.
  intros (Hu & Hacc & Hrows & Hbound) Hlt.
  destruct (body_summary index (started index st))
    as (new & Hev & Hused & Hnew & Hle & Hnorow & _).
  assert (Hacc' : accounted 0 (events (started index st))).
  { simpl. split; [|exact Hacc]. intros u [= <-].
    rewrite live_calls_cons. simpl. exact Hu. }
  assert (Hlive : live_calls (events (started index st)) = requests_used st).
  { simpl. rewrite live_calls_cons. simpl. now rewrite Hu. }
  unfold counted. rewrite Hev, Hused. simpl requests_used.
  split; [rewrite live_calls_app, Hlive; lia|].
  split; [apply accounted_app; [exact Hacc'|]; rewrite Hlive; exact Hnew|].
  split.
  - apply Forall_app. split.
    + eapply Forall_impl; [exact Hnorow|]. intros e He H. congruence.
    + cbn [started events]. constructor; [|exact Hrows].
      intros _ u [= <-]. exact Hlt.
  - apply Forall_app. split.
    + eapply Forall_impl; [exact (accounted_bound _ _ Hnew)|].
      intros e He u Hu'. specialize (He u Hu'). simpl in He. lia.
    + cbn [started events]. constructor; [|exact Hbound].
      intros u [= <-]. lia.
Qed.

Lemma counted_loop (indices : list nat) (st : state Session) :
  counted st -> counted (loop_state (Loop indices st)).
Proof.
  revert st. induction indices as [|index rest IH]; intros st Hst.
  - exact Hst.
  - rewrite loop_cons.
    destruct (MAX_REQUESTS_PER_DAY <=? requests_used st) eqn:Hmax; [exact Hst|].
    apply Nat.leb_gt in Hmax.
    pose proof (counted_body index st Hst Hmax) as Hb.
    destruct (Body index (started index st)) as [[] st'|e st']; simpl in Hb.
    + apply IH, Hb.
    + exact Hb.
Qed.

Lemma counted_initial (csv : list csv_row) (w : store) (s : Session) :
  counted (initial csv w s).
Proof. repeat split; simpl; constructor. Qed.

(** C1, as amended. In any run, whether it ends normally or with an
    exception: [requests_used] is the number of live calls made so far (the
    calls whose response did not come from the cache), at the end and at
    every recorded step; so a live call adds 1 and a call served from the
    cache adds 0, and the counter never decreases. The limit is tested at the head of an iteration only:
    the body of a row is entered only while [requests_used] is below
    [MAX_REQUESTS_PER_DAY], and the up to three calls of that row are then
    made without a further test, so the counter stays within
    [MAX_REQUESTS_PER_DAY + 2]. *)
Theorem C1_requests_used_accounting (csv : list csv_row) (w : store) (s : Session) :
  let st := run_state (Run csv w s) in
  requests_used st = live_calls (events st)
  /\ (forall later p r u earlier,
        events st = later ++ Requested p r u :: earlier ->
        u = live_calls earlier + cost r)
  /\ (forall later i u earlier,
        events st = later ++ RowStarted i u :: earlier ->
        u = live_calls earlier /\ u < MAX_REQUESTS_PER_DAY)
  /\ (forall l1 e1 l2 e2 l3 u1 u2,
        events st = l1 ++ e1 :: l2 ++ e2 :: l3 ->
        used_of e1 = Some u1 -> used_of e2 = Some u2 -> u2 <= u1)
  /\ (forall e u, e ∈ events st -> used_of e = Some u ->
                  u <= MAX_REQUESTS_PER_DAY + 2)
  /\ requests_used st <= MAX_REQUESTS_PER_DAY + 2.
Proof.
  intros st.
  assert (H : counted st).
  { subst st. rewrite run_state_loop. apply counted_loop, counted_initial. }
  destruct H as (Hu & Hacc & Hrows & Hbound).
  split; [exact Hu|]. split; [|split; [|split; [|split]]].
  - intros later p r u earlier Hev. rewrite Hev in Hacc.
    rewrite (accounted_at 0 later earlier _ u Hacc eq_refl).
    rewrite live_calls_cons. destruct r as [|[] d|[]]; simpl; lia.
  - intros later i u earlier Hev. split.
    + rewrite Hev in Hacc.
      rewrite (accounted_at 0 later earlier _ u Hacc eq_refl).
      rewrite live_calls_cons. simpl. lia.
    + rewrite Hev in Hrows. apply Forall_app in Hrows as [_ Hrows].
      apply Forall_cons in Hrows as [Hrow _]. exact (Hrow eq_refl u eq_refl).
  - intros l1 e1 l2 e2 l3 u1 u2 Hev H1 H2. rewrite Hev in Hacc.
    pose proof (accounted_at 0 l1 _ e1 u1 Hacc H1) as E1.
    replace (l1 ++ e1 :: l2 ++ e2 :: l3) with ((l1 ++ e1 :: l2) ++ e2 :: l3)
      in Hacc by (rewrite <- app_assoc; reflexivity).
    pose proof (accounted_at 0 _ _ e2 u2 Hacc H2) as E2.
    rewrite E1, E2. rewrite (live_calls_cons e1), live_calls_app. lia.
  - intros e u He Hu'. rewrite Forall_forall in Hbound. exact (Hbound e He u Hu').
  - rewrite Hu. destruct (events st) as [|e l] eqn:Hev.
    + unfold live_calls. simpl. lia.
    + pose proof (accounted_bound 0 _ Hacc) as Hb.
      clear - Hacc Hbound. revert Hacc Hbound.
      generalize (e :: l). intros l'. induction l' as [|x l' IH].
      * intros _ _. unfold live_calls. simpl. lia.
      * intros [Hx Hacc] Hb. apply Forall_cons in Hb as [Hbx Hb].
        rewrite live_calls_cons.
        destruct x as [i u|p [|[] d|[]] u|i o|i]; cbn [is_live];
          try (apply IH; assumption);
          specialize (Hx u eq_refl); rewrite live_calls_cons in Hx;
          cbn [is_live] in Hx; specialize (Hbx u eq_refl); lia.
Qed.

End Row.

(** ** Runs on concrete catalogues *)

(** C1, counterexample. On a catalogue of 334 films unknown to the service
    and nothing in the cache, every row costs three live calls: row 333 is
    entered with the counter at 999, its exact query brings it to 1000, and
    the title-only and search queries are still issued and bring it to
    1002, above [MAX_REQUESTS_PER_DAY]. *)
Lemma C1_counter_passes_the_limit :
  requests_used
    (run_state (run (Web.get no_service) demo_ratio (unknown_films 334)
                  empty_store Web.fresh)) = 1002
  /\ MAX_REQUESTS_PER_DAY = 1000
  /\ take 6
       (events
          (run_state (run (Web.get no_service) demo_ratio (unknown_films 334)
                        empty_store Web.fresh)))
     = [ ProgressWritten 333;
         Outcome 333 Unresolved;
         Requested (SearchBy "Film 333") (Answers false not_found) 1002;
         Requested (TitleOnly "Film 333") (Answers false not_found) 1001;
         Requested (Exact "Film 333" (Some "2000")) (Answers false not_found) 1000;
         RowStarted 333 999 ].
Proof. split; [|split]; vm_compute; reflexivity. Qed.

(** A response whose body is not JSON: the call is counted, since the
    response is live, before [r.json()] raises and ends the run. *)
Example undecodable_response_is_counted :
  body (fun (s : unit) (_ : params) => (Undecodable false, s)) demo_ratio 0
    (initial [Build_csv_row 1 "Toy Story (1995)" "Animation"] empty_store tt)
  = Raise RequestException
      (mkState [Movie.mk 1 "Toy Story (1995)" "Animation" None None None]
         1 [] None tt
         [Requested (Exact "Toy Story" (Some "1995")) (Undecodable false) 1]).
Proof. reflexivity. Qed.

(** C7, on the code. ["Babylon 5 (TV)"] does not end in a parenthesised
    group of four characters: it is a title without a year. Yet the parser
    does not return it with a [None] year. The guard of line 63 asks only
    for a ["("] somewhere and a [")"] among the last five characters, so the
    title is cut at its ["("], the four characters [" (TV"] are taken as the
    year, and the exact query of the row is sent with that year. In the same
    way a year that is followed by a blank is cut short. *)
Lemma C7_title_without_year_gets_one :
  (forall p y : string,
      "Babylon 5 (TV)" = p +:+ "(" +:+ y +:+ ")" -> String.length y <> 4)
  /\ extract_title_year "Babylon 5 (TV)" = ("Babylon 5", Some " (TV")
  /\ last (events (state_of (body (Web.get demo_service) demo_ratio 0
                              (initial [Build_csv_row 1 "Babylon 5 (TV)" "Drama"]
                                 empty_store Web.fresh))))
     = Some (Requested (Exact "Babylon 5" (Some " (TV"))
               (Answers false not_found) 1)
  /\ extract_title_year "Toy Story (1995) " = ("Toy Story", Some "995)").
Proof.
  split; [|split; [|split]; vm_compute; reflexivity].
  intros p y Heq Hlen.
  pose proof (last_chars_paren p y Hlen) as Hlast.
  rewrite <- Heq in Hlast. vm_compute in Hlast.
  destruct y as [|a y]; discriminate.
Qed.

(** C2, on the code. After a row that ends in one of the two resolved
    branches, line 170 is not reached: on a catalogue of two films, the first
    found by the exact query and the second by the title-only query, the run
    ends without [progress.json] ever being written. *)
Lemma C2_resolved_rows_write_no_progress :
  progress_json
    (run_store (run (Web.get demo_service) demo_ratio (take 2 demo_csv)
                  empty_store Web.fresh)) = None
  /\ filter (fun e => is_outcome e || is_progress e)
       (events (run_state (run (Web.get demo_service) demo_ratio
                             (take 2 demo_csv) empty_store Web.fresh)))
     = [Outcome 1 ResolvedTitleOnly; Outcome 0 ResolvedExact].
Proof. split; vm_compute; reflexivity. Qed.

(** C3, on the code. The loop starts at the index found in
    [progress.json], not at the one after it (and at 0 without the file or
    the key): the first run on [four_films] is aborted in row 3 with row 2
    done and recorded, and the second run starts with row 2 again. *)
Lemma C3_resume_starts_at_the_recorded_index :
  (forall k, start_index (Some {| last_index := Some k |}) = k)
  /\ start_index None = 0
  /\ start_index (Some {| last_index := None |}) = 0
  /\ filter (fun e => is_progress e || is_row_start e)
       (events (run_state first_pass))
     = [RowStarted 3 6; ProgressWritten 2; RowStarted 2 3; ProgressWritten 1;
        RowStarted 1 1; RowStarted 0 0]
  /\ progress_json (run_store first_pass) = Some {| last_index := Some 2 |}
  /\ filter (fun e => is_progress e || is_row_start e)
       (events (run_state second_pass))
     = [ProgressWritten 3; RowStarted 3 0; ProgressWritten 2; RowStarted 2 0].
Proof.
  split; [reflexivity|]. split; [reflexivity|]. split; [reflexivity|].
  split; [|split]; vm_compute; reflexivity.
Qed.

(** C4, on the code. One uninterrupted run on [four_films] against the
    same catalogue done in two runs, the first aborted in row 3: the rows
    before the resumption point are not enriched in the second run, whose
    [movies] and [movie] table therefore lack the director that the single
    run has for row 0, and its [fuzzy_matches.json] lacks the entry of row 1.
    The same holds when a run leaves the loop at the request limit: on
    [long_catalogue] the second day resolves the last row, but the table
    keeps the row that the first day inserted, without a director. *)
Lemma C4_resumed_runs_differ_from_one_run :
  (Movie.Director <$> movies (run_state one_pass) !! 0
   = Some (Some "John Lasseter")
   /\ Movie.Director <$> movies (run_state second_pass) !! 0 = Some None)
  /\ (MovieRow.director <$> movie_table (run_store one_pass) !! 0
      = Some (Some "John Lasseter")
      /\ MovieRow.director <$> movie_table (run_store second_pass) !! 0
         = Some None)
  /\ (CSV_Title <$> default [] (fuzzy_matches_json (run_store one_pass))
      = ["Heat"; "Some Obscure Film"]
      /\ CSV_Title <$> default [] (fuzzy_matches_json (run_store second_pass))
         = ["Some Obscure Film"])
  /\ (progress_json (run_store one_pass) = Some {| last_index := Some 3 |}
      /\ progress_json (run_store second_pass) = Some {| last_index := Some 3 |})
  /\ (Movie.Director <$> movies (run_state second_day) !! 334
      = Some (Some "John Lasseter")
      /\ MovieRow.director <$> movie_table (run_store second_day) !! 334
         = Some None).
Proof.
  repeat match goal with |- _ /\ _ => split end; vm_compute; reflexivity.
Qed.

(** ** The theorems at concrete rows *)

(** C5 at row 0 of [demo_csv]: ["Toy Story (1995)"] is resolved by its
    exact query, the only request made. *)
Lemma C5_witness_toy_story :
  exists st',
    body (Web.get demo_service) demo_ratio 0
      (initial demo_csv empty_store Web.fresh) = Ok tt st'
    /\ Movie.Director <$> movies st' !! 0 = Some (Some "John Lasseter")
    /\ events st'
       = [ Outcome 0 ResolvedExact;
           Requested (Exact "Toy Story" (Some "1995"))
             (Answers false (film "Toy Story" "1995" "John Lasseter")) 1 ].
Proof.
  destruct (C5_exact_match_ends_the_cascade (Web.get demo_service) demo_ratio 0
              (initial demo_csv empty_store Web.fresh)
              (Movie.mk 1 "Toy Story (1995)" "Animation" None None None)
              "Toy Story" (Some "1995") false
              (film "Toy Story" "1995" "John Lasseter")
              (Web.mk [Exact "Toy Story" (Some "1995")] [])
              eq_refl eq_refl eq_refl eq_refl)
    as (st' & _ & Hb & _ & Hrow & _ & Hev & Hused & _).
  exists st'. split; [exact Hb|]. split.
  - rewrite Hrow. reflexivity.
  - rewrite Hev, Hused. reflexivity.
Defined.

(** C6 at rows 1 and 2 of [demo_csv]: ["Dr Strangelove"] is resolved by the
    title-only answer ["Dr. Strangelove"] and gets its director, plot and
    box office; ["Heat"], answered with ["The Heat"], is logged. *)
Lemma C6_witness_strangelove_and_heat :
  (exists st',
      cascade (Web.get demo_service) demo_ratio 1
        (initial demo_csv empty_store Web.fresh) = Ok Continue st'
      /\ movies st' !! 1
         = Some (Movie.mk 2 "Dr Strangelove (1964)" "Comedy"
                   (Some "Stanley Kubrick") (Some "A plot.") (Some "N/A"))
      /\ head (events st') = Some (Outcome 1 ResolvedTitleOnly))
  /\ (exists st',
        cascade (Web.get demo_service) demo_ratio 2
          (initial demo_csv empty_store Web.fresh) = Ok EndOfBody st'
        /\ fuzzy_log st'
           = [ {| CSV_Title := "Heat"; Suggested_Match := "The Heat";
                  entry_Year := Some "2013";
                  Score := demo_ratio "heat" "the heat" |} ]).
Proof.
  split.
  - destruct (C6_title_only_comparison (Web.get demo_service) demo_ratio 1
                (initial demo_csv empty_store Web.fresh)
                (Movie.mk 2 "Dr Strangelove (1964)" "Comedy" None None None)
                "Dr Strangelove" (Some "1964") false false not_found
                (film "Dr. Strangelove" "1964" "Stanley Kubrick")
                (Web.mk [Exact "Dr Strangelove" (Some "1964")] [])
                (Web.mk [TitleOnly "Dr Strangelove";
                         Exact "Dr Strangelove" (Some "1964")] [])
                eq_refl eq_refl eq_refl eq_refl eq_refl eq_refl)
      as (_ & _ & Hsame & _).
    destruct (Hsame eq_refl) as (st' & Hc & _ & Hrow & _ & Hev).
    exists st'. split; [exact Hc|]. split; [exact Hrow | exact Hev].
  - destruct (C6_title_only_comparison (Web.get demo_service) demo_ratio 2
                (initial demo_csv empty_store Web.fresh)
                (Movie.mk 3 "Heat (1995)" "Action" None None None)
                "Heat" (Some "1995") false false not_found
                (film "The Heat" "2013" "Paul Feig")
                (Web.mk [Exact "Heat" (Some "1995")] [])
                (Web.mk [TitleOnly "Heat"; Exact "Heat" (Some "1995")] [])
                eq_refl eq_refl eq_refl eq_refl eq_refl eq_refl)
      as (_ & _ & _ & Hdiff).
    destruct (Hdiff ltac:(discriminate)) as (st' & Hc & _ & Hlog & _).
    exists st'. split; [exact Hc | exact Hlog].
Defined.

(** The parser at ["Toy Story (1995)"] and at ["Toy Story"], the title of a
    catalogue of one row whose exact query then goes out without a year. *)
Example extract_title_year_toy_story :
  extract_title_year "Toy Story (1995)" = ("Toy Story", Some "1995")
  /\ extract_title_year "Toy Story" = ("Toy Story", None)
  /\ exists new u,
      events (state_of (body (Web.get demo_service) demo_ratio 0
                          (initial [Build_csv_row 1 "Toy Story" "Animation"]
                             empty_store Web.fresh)))
      = new ++ [Requested (Exact "Toy Story" None) (Answers false not_found) u].
Proof.
  destruct (extract_title_year_branches (Web.get demo_service) demo_ratio)
    as (Hyear & Hnone & Hquery).
  split; [exact (Hyear "Toy Story " "1995" eq_refl eq_refl)|].
  split; [exact (proj1 (Hnone "Toy Story") (or_introl eq_refl))|].
  exact (Hquery 0 (initial [Build_csv_row 1 "Toy Story" "Animation"]
                     empty_store Web.fresh)
           (Movie.mk 1 "Toy Story" "Animation" None None None)
           eq_refl eq_refl).
Qed.

(** C8 at [first_pass]: the rows 0, 1 and 2 leave the counter at 6, the
    exact query of row 3 raises, and the run is aborted there; the next run
    starts at index 2 and enters row 3 again. *)
Lemma C8_witness_first_pass :
  first_pass
  = Crashed 3 RequestException (run_state first_pass) (run_store first_pass)
  /\ take 2 (events (run_state first_pass))
     = [Requested (Exact "Nothing" (Some "2003")) Raises 6; RowStarted 3 6]
  /\ (forall o, Outcome 3 o ∉ events (run_state first_pass))
  /\ progress_json (run_store first_pass) = Some {| last_index := Some 2 |}
  /\ 3 ∈ range (start_index (progress_json (run_store first_pass)))
           (length four_films)
  /\ ((exists u, RowStarted 3 u ∈ events (run_state second_pass))
      \/ (exists j e st2 w2, second_pass = Crashed j e st2 w2 /\ j < 3)
      \/ MAX_REQUESTS_PER_DAY <= requests_used (run_state second_pass)).
Proof.
  pose (s0 := Web.mk [] [false; false; false; false; false; false; true]).
  pose (st3 := loop_state (loop (Web.get demo_service) demo_ratio [0; 1; 2]
                             (initial four_films empty_store s0))).
  assert (H1 : range (start_index (progress_json empty_store))
                 (length four_films) = [0; 1; 2] ++ 3 :: [])
    by reflexivity.
  assert (H2 : loop (Web.get demo_service) demo_ratio [0; 1; 2]
                 (initial four_films empty_store s0) = Completed st3)
    by (vm_compute; reflexivity).
  assert (H3 : requests_used st3 < MAX_REQUESTS_PER_DAY).
  { replace (requests_used st3) with 6 by (vm_compute; reflexivity).
    unfold MAX_REQUESTS_PER_DAY. lia. }
  assert (H4 : movies st3 !! 3
               = Some (Movie.mk 5 "Nothing (2003)" "Drama" None None None))
    by (vm_compute; reflexivity).
  assert (H5 : transport_fails (Web.get demo_service) (session st3)
                 (extract_title_year "Nothing (2003)").1
                 (extract_title_year "Nothing (2003)").2)
    by (left; eexists; vm_compute; reflexivity).
  destruct (C8_request_exception_stops_the_run (Web.get demo_service)
              demo_ratio four_films empty_store s0 [0; 1; 2] [] 3 st3
              (Movie.mk 5 "Nothing (2003)" "Drama" None None None)
              H1 H2 H3 H4 H5)
    as (st' & w' & Hrun & _ & Hout & _ & _ & _ & _ & _ & _ & Hin & Hnext).
  assert (Hfirst : first_pass = Crashed 3 RequestException st' w')
    by exact Hrun.
  assert (Hst : run_state first_pass = st') by (rewrite Hfirst; reflexivity).
  assert (Hw : run_store first_pass = w') by (rewrite Hfirst; reflexivity).
  split; [rewrite Hst, Hw; exact Hfirst|].
  split; [vm_compute; reflexivity|].
  split; [rewrite Hst; exact Hout|]. split; [vm_compute; reflexivity|].
  split; [rewrite Hw; exact Hin|]. unfold second_pass. rewrite Hw, Hst.
  exact (Hnext (session st')).
Defined.

Lemma search_service_nonempty : search_answers_nonempty (Web.get search_service).
Proof.
  intros s q from_cache data s' Hget _. unfold Web.get in Hget.
  destruct (existsb _ _); [injection Hget as _ <- _; simpl; eauto|].
  destruct (Web.down s) as [|[] d]; try discriminate;
    injection Hget as _ <- _; simpl; eauto.
Defined.

(** C10 at two candidates, at a run on a service whose searches always find
    a candidate, and at a row whose search finds an empty list. *)
Lemma C10_witness_candidates :
  (exists best,
      Py.max_by (fun m => demo_ratio "Up" (cand_Title m))
        [Build_candidate "Up!" "2009"; Build_candidate "Up" "2009"] = Some best
      /\ best ∈ [Build_candidate "Up!" "2009"; Build_candidate "Up" "2009"])
  /\ match run (Web.get search_service) demo_ratio four_films empty_store
             (Web.mk [] [false; false; false; true]) with
     | Crashed _ e _ _ => e = RequestException
     | Finished _ _ => True
     end
  /\ exists st',
      body (Web.get empty_search_service) demo_ratio 3
        (initial four_films empty_store Web.fresh) = Raise ValueError st'.
Proof.
  destruct (C10_fuzzy_selection_needs_a_candidate (Web.get search_service) demo_ratio)
    as (Hmax & Hrun & _).
  destruct (C10_fuzzy_selection_needs_a_candidate (Web.get empty_search_service)
              demo_ratio) as (_ & _ & Hempty).
  split; [|split].
  - destruct (proj1 (Hmax (fun m => demo_ratio "Up" (cand_Title m))
                       [Build_candidate "Up!" "2009"; Build_candidate "Up" "2009"])
                ltac:(discriminate)) as (best & Hb & Hin & _).
    exists best. split; assumption.
  - destruct (run (Web.get search_service) demo_ratio four_films empty_store
                (Web.mk [] [false; false; false; true]))
      as [st w|i e st w] eqn:E; [exact I|].
    exact (Hrun search_service_nonempty _ _ _ _ _ _ _ E).
  - exact (Hempty 3 (initial four_films empty_store Web.fresh)
             (Movie.mk 5 "Nothing (2003)" "Drama" None None None)
             "Nothing" (Some "2003") false false false
             not_found not_found (hits [])
             (Web.mk [Exact "Nothing" (Some "2003")] [])
             (Web.mk [TitleOnly "Nothing"; Exact "Nothing" (Some "2003")] [])
             (Web.mk [SearchBy "Nothing"; TitleOnly "Nothing";
                      Exact "Nothing" (Some "2003")] [])
             eq_refl eq_refl eq_refl eq_refl eq_refl eq_refl eq_refl eq_refl
             eq_refl).
Defined.

(** * More of the script *)

(** ** More on the title parser and on [clean] *)

Lemma before_last_some (c : ascii) (s p : string) :
  Py.before_last c s = Some p ->
  exists post, s = p +:+ String c post /\ Py.contains c post = false.
Proof.
  revert p. induction s as [|a s IH]; intros p; simpl; [discriminate|].
  destruct (Py.before_last c s) as [p'|] eqn:E.
  - intros [= <-]. destruct (IH p' eq_refl) as (post & -> & Hpost).
    exists post. split; [reflexivity | exact Hpost].
  - destruct (Ascii.eqb_spec a c) as [->|_]; [|discriminate].
    intros [= <-]. exists s. split; [reflexivity|].
    apply before_last_contains, E.
Qed.

Lemma rstrip_idempotent (s : string) : Py.rstrip (Py.rstrip s) = Py.rstrip s.
Proof.
  induction s as [|a s IH]; simpl; [reflexivity|].
  destruct (Py.rstrip s) as [|b r] eqn:E.
  - destruct (Py.isspace a) eqn:Ha; simpl; [reflexivity|]. now rewrite Ha.
  - simpl in *. now rewrite IH.
Qed.

Lemma rstrip_head (s : string) (a : ascii) (r : string) :
  Py.rstrip s = String a r -> exists r', s = String a r'.
Proof.
  destruct s as [|b s]; simpl; [discriminate|].
  destruct (Py.rstrip s); [destruct (Py.isspace b)|]; intros [= <- <-]; eauto.
Qed.

Lemma lstrip_head (s : string) :
  match Py.lstrip s with
  | EmptyString => True
  | String a _ => Py.isspace a = false
  end.
Proof.
  induction s as [|a s IH]; simpl; [exact I|].
  destruct (Py.isspace a) eqn:E; [exact IH | exact E].
Qed.

Lemma lstrip_fixed (s : string) :
  match s with
  | EmptyString => True
  | String a _ => Py.isspace a = false
  end -> Py.lstrip s = s.
Proof. destruct s as [|a s]; simpl; [reflexivity|]. now intros ->. Qed.

Lemma strip_idempotent (s : string) : Py.strip (Py.strip s) = Py.strip s.
Proof.
  unfold Py.strip.
  assert (H : Py.lstrip (Py.rstrip (Py.lstrip s)) = Py.rstrip (Py.lstrip s)).
  { apply lstrip_fixed. destruct (Py.rstrip (Py.lstrip s)) as [|a r] eqn:E; [exact I|].
    destruct (rstrip_head _ _ _ E) as [r' Hr].
    pose proof (lstrip_head s) as Hh. now rewrite Hr in Hh. }
  rewrite H. apply rstrip_idempotent.
Qed.

Lemma substring_split (n : nat) (s : string) :
  n <= String.length s ->
  s = substring 0 n s +:+ substring n (String.length s - n) s.
Proof.
  revert n. induction s as [|a s IH]; intros [|n] Hn; simpl in *; try lia.
  - reflexivity.
  - now rewrite substring_whole.
  - change (String a s
            = String a (substring 0 n s +:+ substring n (String.length s - n) s)).
    f_equal. apply IH. lia.
Qed.

Lemma substring_length (n m : nat) (s : string) :
  n + m <= String.length s -> String.length (substring n m s) = m.
Proof.
  revert n m. induction s as [|a s IH]; intros [|n] [|m] H; simpl in *;
    try reflexivity; try lia.
  - f_equal. apply (IH 0 m). lia.
  - apply (IH n 0). lia.
  - apply (IH n (S m)). lia.
Qed.

Lemma substring_three (a m : nat) (s : string) :
  a + m <= String.length s ->
  s = substring 0 a s +:+ substring a m s
      +:+ substring (a + m) (String.length s - (a + m)) s.
Proof.
  revert a. induction s as [|c s IH]; intros [|a] H.
  - destruct m; [reflexivity | simpl in H; lia].
  - simpl in H. lia.
  - change (substring 0 0 (String c s)) with EmptyString.
    change (0 + m) with m in *.
    change (EmptyString +:+ ?x) with x.
    apply substring_split. exact H.
  - simpl in H.
    change (String c s
            = String c (substring 0 a s +:+ substring a m s
                        +:+ substring (a + m) (String.length s - (a + m)) s)).
    f_equal. apply IH. lia.
Qed.

Lemma length_one (x : string) :
  String.length x = 1 -> exists c, x = String c EmptyString.
Proof. destruct x as [|c [|d x]]; simpl; try discriminate. eauto. Qed.

(** X1. Whatever the title, the parser returns it unchanged with [None],
    or else a year and a title such that: the title is the stripped text
    before the last ["("] of the raw title (so stripping it again changes
    nothing); the year is the text of the up to four characters before the
    last character of the raw title, exactly four when the raw title has five
    characters or more. *)
Theorem X1_extract_title_year_result (s : string) :
  match extract_title_year s with
  | (t, None) => t = s
  | (t, Some y) =>
      (exists pre post,
          s = pre +:+ "(" +:+ post /\ Py.contains "(" post = false
          /\ t = Py.strip pre /\ Py.strip t = t)
      /\ String.length y = Nat.min 4 (String.length s - 1)
      /\ exists before c, s = before +:+ y +:+ String c EmptyString
  end.
Proof.
  unfold extract_title_year.
  destruct (Py.contains "(" s) eqn:Hp; [|reflexivity].
  destruct (Py.contains ")" (Py.last_chars 5 s)) eqn:Hc; [|reflexivity].
  cbn [andb]. split; [|split].
  - unfold Py.rsplit1_head.
    destruct (Py.before_last "(" s) as [p|] eqn:E.
    + destruct (before_last_some _ _ _ E) as (post & Hs & Hpost).
      exists p, post. split; [exact Hs|]. split; [exact Hpost|].
      split; [reflexivity | apply strip_idempotent].
    + apply before_last_contains in E. congruence.
  - unfold Py.slice_from_end, Py.slice.
    destruct s as [|a s]; [discriminate|].
    rewrite substring_length; cbn [String.length]; lia.
  - unfold Py.slice_from_end, Py.slice.
    destruct s as [|a s]; [discriminate|].
    set (full := String a s). set (n := String.length full).
    assert (Hn : 1 <= n) by (subst n; simpl; lia).
    pose proof (substring_three (n - 5) (n - 1 - (n - 5)) full ltac:(lia)) as H3.
    fold n in H3.
    destruct (length_one (substring (n - 5 + (n - 1 - (n - 5)))
                             (n - (n - 5 + (n - 1 - (n - 5)))) full))
      as [c Hc'].
    { rewrite substring_length; fold n; lia. }
    rewrite Hc' in H3. eauto.
Qed.

Lemma remove_fixed (c : ascii) (s : string) :
  Py.contains c s = false -> Py.remove c s = s.
Proof.
  induction s as [|a s IH]; simpl; [reflexivity|].
  destruct (Ascii.eqb a c); [discriminate|]. intros H. now rewrite IH.
Qed.

Lemma remove_comm (c d : ascii) (s : string) :
  Py.remove c (Py.remove d s) = Py.remove d (Py.remove c s).
Proof.
  induction s as [|a s IH]; simpl; [reflexivity|].
  destruct (Ascii.eqb a d) eqn:Ed, (Ascii.eqb a c) eqn:Ec; simpl;
    rewrite ?Ed, ?Ec, ?IH; reflexivity.
Qed.

Lemma lower_char_fixed (a : ascii) : is_upper a = false -> Py.lower_char a = a.
Proof. unfold is_upper, Py.lower_char. now intros ->. Qed.

Lemma lower_idempotent (s : string) : Py.lower (Py.lower s) = Py.lower s.
Proof.
  induction s as [|a s IH]; simpl; [reflexivity|].
  now rewrite IH, (lower_char_fixed _ (lower_char_not_upper a)).
Qed.

Lemma lower_fixed (s : string) :
  (forall c, is_upper c = true -> Py.contains c s = false) -> Py.lower s = s.
Proof.
  induction s as [|a s IH]; simpl; [reflexivity|]. intros H.
  assert (Ha : is_upper a = false).
  { destruct (is_upper a) eqn:E; [|reflexivity].
    specialize (H a E). now rewrite Ascii.eqb_refl in H. }
  rewrite (lower_char_fixed a Ha). f_equal. apply IH.
  intros c Hc. specialize (H c Hc). now destruct (Ascii.eqb a c).
Qed.

Lemma lower_remove (c : ascii) (s : string) :
  c ∈ punctuation -> Py.lower (Py.remove c s) = Py.remove c (Py.lower s).
Proof.
  intros Hc.
  assert (H : forall a, Ascii.eqb (Py.lower_char a) c = Ascii.eqb a c).
  { intros a. unfold punctuation in Hc.
    repeat (apply elem_of_cons in Hc as [->|Hc]);
      [destruct a as [[] [] [] [] [] [] [] []]; reflexivity ..|].
    inversion Hc. }
  induction s as [|a s IH]; simpl; [reflexivity|].
  rewrite H. destruct (Ascii.eqb a c); simpl; now rewrite IH.
Qed.

Lemma unpunctuate_remove (c : ascii) (s : string) :
  unpunctuate (Py.remove c s) = Py.remove c (unpunctuate s).
Proof.
  unfold unpunctuate.
  now rewrite (remove_comm "," c), (remove_comm "'" c), (remove_comm ":" c),
    (remove_comm "-" c), (remove_comm "." c).
Qed.

Lemma unpunctuate_clean (c : ascii) (s : string) :
  c ∈ punctuation -> Py.contains c (unpunctuate s) = false.
Proof.
  intros Hc. unfold punctuation in Hc. unfold unpunctuate.
  repeat (apply elem_of_cons in Hc as [->|Hc]);
    [repeat first [ apply contains_remove_same | apply contains_remove_other ] ..|].
  inversion Hc.
Qed.

(** X2. [clean] is a normal form: cleaning a cleaned text changes
    nothing, and the case of the letters does not change the result; on an
    ASCII text, the presence of any of the five punctuation marks does not
    change it either. *)
Theorem X2_clean_is_a_normal_form (t : string) :
  clean (clean t) = clean t
  /\ clean (Py.lower t) = clean t
  /\ forall c, c ∈ punctuation -> Py.isascii t = true ->
               clean (Py.remove c t) = clean t.
Proof.
  split; [|split].
  - assert (Hp : forall c, c ∈ punctuation -> Py.contains c (clean t) = false).
    { intros c Hc. pose proof (clean_has_no_punctuation t) as H.
      rewrite Forall_forall in H. exact (H c Hc). }
    unfold clean at 1.
    rewrite (lower_fixed (clean t)) by (intros c Hc; apply clean_has_no_capital, Hc).
    rewrite (remove_fixed "," (clean t)) by (apply Hp; repeat constructor).
    rewrite (remove_fixed "'" (clean t)) by (apply Hp; repeat constructor).
    rewrite (remove_fixed ":" (clean t)) by (apply Hp; repeat constructor).
    rewrite (remove_fixed "-" (clean t)) by (apply Hp; repeat constructor).
    rewrite (remove_fixed "." (clean t)) by (apply Hp; repeat constructor).
    unfold clean. apply strip_idempotent.
  - unfold clean. now rewrite lower_idempotent.
  - intros c Hc _. unfold clean. rewrite (lower_remove c t Hc).
    fold (unpunctuate (Py.remove c (Py.lower t))).
    fold (unpunctuate (Py.lower t)).
    rewrite unpunctuate_remove, remove_fixed; [reflexivity|].
    apply unpunctuate_clean, Hc.
Qed.

(** ** More on [max] *)

Lemma max_from_split {A : Type} (key : A -> Q) (l pre mid : list A) (best : A) :
  Forall (fun x => (key x < key best)%Q) pre ->
  Forall (fun x => (key x <= key best)%Q) mid ->
  exists l1 l2,
    pre ++ best :: mid ++ l = l1 ++ Py.max_from key best l :: l2
    /\ Forall (fun x => (key x < key (Py.max_from key best l))%Q) l1
    /\ Forall (fun x => (key x <= key (Py.max_from key best l))%Q) l2.
Proof.
  revert pre mid best. induction l as [|x l IH]; intros pre mid best Hpre Hmid.
  - exists pre, mid. rewrite app_nil_r. auto.
  - simpl. destruct (Qle_bool (key x) (key best)) eqn:E.
    + apply Qle_bool_iff in E.
      destruct (IH pre (mid ++ [x]) best Hpre) as (l1 & l2 & Heq & H1 & H2).
      { apply Forall_app. split; [exact Hmid | repeat constructor; exact E]. }
      exists l1, l2. rewrite <- Heq, <- app_assoc. auto.
    + assert (Hlt : (key best < key x)%Q).
      { apply Qnot_le_lt. intros H. apply Qle_bool_iff in H. congruence. }
      destruct (IH (pre ++ best :: mid) [] x) as (l1 & l2 & Heq & H1 & H2).
      { apply Forall_app. split.
        - eapply Forall_impl; [exact Hpre|]. intros y Hy. exact (Qlt_trans _ _ _ Hy Hlt).
        - constructor; [exact Hlt|]. eapply Forall_impl; [exact Hmid|].
          intros y Hy. exact (Qle_lt_trans _ _ _ Hy Hlt). }
      { constructor. }
      exists l1, l2. rewrite <- Heq, <- app_assoc. auto.
Qed.

(** X3. [max] with a key has no result exactly on the empty list; on any
    other list it returns the first of the elements of greatest key: every
    element before it has a strictly smaller key, every element after it a
    key that is not greater. *)
Theorem X3_max_takes_the_first_of_the_greatest
  {A : Type} (key : A -> Q) (l : list A) :
  match Py.max_by key l with
  | None => l = []
  | Some best =>
      exists l1 l2,
        l = l1 ++ best :: l2
        /\ Forall (fun x => (key x < key best)%Q) l1
        /\ Forall (fun x => (key x <= key best)%Q) l2
  end.
Proof.
  destruct l as [|x l]; simpl; [reflexivity|].
  destruct (max_from_split key l [] [] x) as (l1 & l2 & Heq & H1 & H2);
    [constructor | constructor |].
  exists l1, l2. auto.
Qed.

(** ** Splitting the genres *)

Lemma split_not_nil (sep : ascii) (s : string) : split sep s <> [].
Proof.
  destruct s as [|c r]; simpl; [discriminate|].
  destruct (Ascii.eqb c sep); [discriminate|].
  destruct (split sep r); discriminate.
Qed.

Lemma join_cons (sep : ascii) (x y : string) (l : list string) :
  join sep (x :: y :: l) = x +:+ String sep (join sep (y :: l)).
Proof. reflexivity. Qed.

Lemma join_split (sep : ascii) (s : string) : join sep (split sep s) = s.
Proof.
  induction s as [|c r IH]; [reflexivity|]. simpl.
  destruct (Ascii.eqb_spec c sep) as [->|Hne].
  - pose proof (split_not_nil sep r) as Hnil.
    destruct (split sep r) as [|y l]; [congruence|].
    rewrite join_cons, IH. reflexivity.
  - pose proof (split_not_nil sep r) as Hnil.
    destruct (split sep r) as [|y [|z l]]; [congruence | |].
    + simpl in *. now rewrite IH.
    + rewrite join_cons in IH |- *. rewrite <- IH. reflexivity.
Qed.

Lemma split_pieces (sep : ascii) (s : string) :
  Forall (fun x => Py.contains sep x = false) (split sep s).
Proof.
  induction s as [|c r IH]; simpl; [repeat constructor|].
  destruct (Ascii.eqb c sep) eqn:E.
  - constructor; [reflexivity | exact IH].
  - pose proof (split_not_nil sep r) as Hnil.
    destruct (split sep r) as [|y l]; [congruence|].
    apply Forall_cons in IH as [Hy Hl]. constructor; [|exact Hl].
    simpl. now rewrite E.
Qed.

Lemma split_length (sep : ascii) (s : string) :
  length (split sep s) = S (occurrences sep s).
Proof.
  induction s as [|c r IH]; simpl; [reflexivity|].
  destruct (Ascii.eqb c sep); simpl; [now rewrite IH|].
  pose proof (split_not_nil sep r) as Hnil.
  destruct (split sep r) as [|y l]; [congruence | exact IH].
Qed.

Lemma split_join (sep : ascii) (l : list string) :
  l <> [] ->
  Forall (fun x => Py.contains sep x = false) l ->
  split sep (join sep l) = l.
Proof.
  induction l as [|x l IH]; [congruence|]. intros _ Hall.
  apply Forall_cons in Hall as [Hx Hl].
  destruct l as [|y l].
  - simpl. clear IH Hl. induction x as [|c x IHx]; [reflexivity|].
    simpl in *. destruct (Ascii.eqb c sep); [discriminate|].
    now rewrite (IHx Hx).
  - rewrite join_cons. specialize (IH ltac:(discriminate) Hl).
    induction x as [|c x IHx].
    + change (EmptyString +:+ ?z) with z. cbn [split].
      rewrite Ascii.eqb_refl, IH. reflexivity.
    + simpl in Hx. destruct (Ascii.eqb c sep) eqn:E; [discriminate|].
      change (split sep (String c (x +:+ String sep (join sep (y :: l))))
              = String c x :: y :: l).
      cbn [split]. rewrite E, (IHx Hx). reflexivity.
Qed.

(** X4. Splitting at a separator and joining with it are inverse: the
    pieces of a text joined give the text back, they are one more than the
    separators in the text and none contains the separator; and a list of
    pieces without the separator, not empty, joined and split gives the
    list back. *)
Theorem X4_split_and_join (sep : ascii) :
  (forall s,
      join sep (split sep s) = s
      /\ length (split sep s) = S (occurrences sep s)
      /\ Forall (fun x => Py.contains sep x = false) (split sep s))
  /\ (forall l,
        l <> [] -> Forall (fun x => Py.contains sep x = false) l ->
        split sep (join sep l) = l).
Proof.
  split.
  - intros s. split; [apply join_split|]. split; [apply split_length | apply split_pieces].
  - apply split_join.
Qed.

(** ** [unique] *)

Section Unique.

Context {A : Type} `{EqDecision A}.

Lemma unique_from_seen (seen seen' l : list A) :
  (forall x, x ∈ seen <-> x ∈ seen') -> unique_from seen l = unique_from seen' l.
Proof.
  revert seen seen'. induction l as [|x l IH]; intros seen seen' H; simpl; [reflexivity|].
  destruct (decide (x ∈ seen)) as [Hx|Hx], (decide (x ∈ seen')) as [Hx'|Hx'].
  - apply IH, H.
  - destruct Hx'. apply H, Hx.
  - destruct Hx. apply H, Hx'.
  - f_equal. apply IH. intros y. rewrite !elem_of_cons, H. reflexivity.
Qed.

Lemma unique_from_spec (seen l : list A) :
  NoDup (unique_from seen l)
  /\ forall x, x ∈ unique_from seen l <-> x ∈ l /\ x ∉ seen.
Proof.
  revert seen. induction l as [|x l IH]; intros seen; simpl.
  - split; [constructor|]. intros y. split; [inversion 1 | intros [H _]; inversion H].
  - destruct (decide (x ∈ seen)) as [Hx|Hx].
    + destruct (IH seen) as [Hnd Hin]. split; [exact Hnd|].
      intros y. rewrite Hin, elem_of_cons. split; [tauto|].
      intros [[->|Hy] Hs]; [contradiction | tauto].
    + destruct (IH (x :: seen)) as [Hnd Hin]. split.
      * constructor; [|exact Hnd]. rewrite Hin, elem_of_cons. tauto.
      * intros y. rewrite !elem_of_cons, Hin, elem_of_cons.
        destruct (decide (y = x)) as [->|Hne]; tauto.
Qed.

Lemma unique_from_filter (seen seen' l : list A) :
  unique_from (seen ++ seen') l
  = filter (fun y => y ∉ seen) (unique_from seen' l).
Proof.
  revert seen seen'. induction l as [|x l IH]; intros seen seen'; simpl; [reflexivity|].
  destruct (decide (x ∈ seen')) as [Hx'|Hx'].
  - rewrite decide_True by (apply elem_of_app; now right). apply IH.
  - rewrite filter_cons. destruct (decide (x ∉ seen)) as [Hx|Hx].
    + rewrite decide_False by (rewrite elem_of_app; tauto).
      f_equal. rewrite <- IH. apply unique_from_seen.
      intros y. rewrite !elem_of_cons, !elem_of_app, elem_of_cons. tauto.
    + assert (Hin : x ∈ seen) by (destruct (decide (x ∈ seen)); tauto).
      rewrite decide_True by (apply elem_of_app; now left).
      rewrite <- IH. apply unique_from_seen.
      intros y. rewrite !elem_of_app, elem_of_cons.
      split; [tauto|]. intros [H|[->|H]]; tauto.
Qed.

Lemma unique_cons (x : A) (l : list A) :
  unique (x :: l) = x :: filter (fun y => y ≠ x) (unique l).
Proof.
  unfold unique. cbn [unique_from].
  destruct (decide (x ∈ [])) as [H|_]; [inversion H|]. f_equal.
  change [x] with ([x] ++ []) at 1.
  rewrite (unique_from_filter [x] [] l). apply list_filter_iff.
  intros y. rewrite list_elem_of_singleton. reflexivity.
Qed.

Lemma filter_all (P : A -> Prop) `{forall x, Decision (P x)} (l : list A) :
  Forall P l -> filter P l = l.
Proof.
  induction 1 as [|x l Hx Hl IH]; [reflexivity|].
  rewrite filter_cons_True by exact Hx. now rewrite IH.
Qed.

Lemma unique_nodup (l : list A) : NoDup l -> unique l = l.
Proof.
  induction 1 as [|x l Hx Hnd IH]; [reflexivity|].
  rewrite unique_cons, IH. f_equal.
  apply filter_all. apply Forall_forall. intros y Hy ->. contradiction.
Qed.

End Unique.

(** X5. [unique] keeps every value once, in the order of the first
    occurrences: its result has no duplicates and the same elements as the
    argument, the head of a list comes first followed by the unique values
    of the tail without it, and a second [unique] changes nothing. *)
Theorem X5_unique_keeps_first_occurrences {A : Type} `{EqDecision A} (l : list A) :
  NoDup (unique l)
  /\ (forall x, x ∈ unique l <-> x ∈ l)
  /\ unique [] = @nil A
  /\ (forall x, unique (x :: l) = x :: filter (fun y => y ≠ x) (unique l))
  /\ unique (unique l) = unique l.
Proof.
  destruct (unique_from_spec [] l) as [Hnd Hin].
  split; [exact Hnd|]. split.
  - intros x. unfold unique. rewrite Hin. split; [tauto|]. intros H. split; [exact H | inversion 1].
  - split; [reflexivity|]. split; [intros x; apply unique_cons|].
    apply unique_nodup, Hnd.
Qed.

(** ** The genres of the catalogue *)

Lemma movie_genres_cons (m : Movie.t) (ms : list Movie.t) :
  movie_genres (m :: ms)
  = ((fun g => Build_genre_row (Movie.movieId m) (Movie.genres m) (Py.strip g))
       <$> split "|" (Movie.genres m)) ++ movie_genres ms.
Proof. reflexivity. Qed.

(** X6. The rows of [movie_genres] are, for every film, one row for each
    piece of its [genres] text split at ["|"], with the film's id and the
    piece stripped: no [genre] contains ["|"] or has white space at its ends,
    there are as many rows as films plus ["|"] characters, and [genres] lists
    every genre of those rows exactly once. *)
Theorem X6_movie_genres_rows (ms : list Movie.t) :
  (forall r,
      r ∈ movie_genres ms <->
      exists m g, m ∈ ms /\ g ∈ split "|" (Movie.genres m)
                  /\ r = Build_genre_row (Movie.movieId m) (Movie.genres m)
                           (Py.strip g))
  /\ Forall (fun r => Py.contains "|" (mg_genre r) = false
                      /\ Py.strip (mg_genre r) = mg_genre r) (movie_genres ms)
  /\ length (movie_genres ms)
     = length ms + sum_list ((fun m => occurrences "|" (Movie.genres m)) <$> ms)
  /\ NoDup (genres ms)
  /\ (forall g, g ∈ genres ms <-> exists r, r ∈ movie_genres ms /\ mg_genre r = g).
Proof.
  assert (Hin : forall r,
             r ∈ movie_genres ms <->
             exists m g, m ∈ ms /\ g ∈ split "|" (Movie.genres m)
                         /\ r = Build_genre_row (Movie.movieId m) (Movie.genres m)
                                  (Py.strip g)).
  { intros r. unfold movie_genres. rewrite list_elem_of_bind. split.
    - intros (m & Hr & Hm). apply list_elem_of_fmap in Hr as (g & -> & Hg). eauto.
    - intros (m & g & Hm & Hg & ->). exists m. split; [|exact Hm].
      apply list_elem_of_fmap. eauto. }
  split; [exact Hin|]. split; [|split; [|split]].
  - apply Forall_forall. intros r Hr. apply Hin in Hr as (m & g & _ & Hg & ->).
    simpl. split; [|apply strip_idempotent].
    apply contains_strip. pose proof (split_pieces "|" (Movie.genres m)) as Hp.
    rewrite Forall_forall in Hp. exact (Hp g Hg).
  - clear Hin. induction ms as [|m ms IH]; [reflexivity|].
    rewrite movie_genres_cons, length_app, length_fmap, split_length.
    rewrite IH, fmap_cons.
    change (sum_list (?a :: ?l)) with (a + sum_list l).
    cbn [length]. lia.
  - unfold genres. apply (proj1 (unique_from_spec [] _)).
  - intros g. unfold genres. unfold unique.
    rewrite (proj2 (unique_from_spec [] _)), list_elem_of_fmap. split.
    + intros [(r & -> & Hr) _]. eauto.
    + intros (r & Hr & <-). split; [eauto | inversion 1].
Qed.

(** ** The release year *)

Lemma first_paren_year_unfold (s : string) :
  first_paren_year s = first_paren_year_step first_paren_year s.
Proof. destruct s; reflexivity. Qed.

Lemma step_other (rest : string -> option nat) (c : ascii) (r : string) :
  Ascii.eqb c "(" = false -> first_paren_year_step rest (String c r) = rest r.
Proof.
  destruct c as [[] [] [] [] [] [] [] []]; intros H;
    first [ discriminate H | reflexivity ].
Qed.

Lemma step_paren (rest : string -> option nat) (r : string) :
  first_paren_year_step rest (String "(" r)
  = match year_here r with
    | Some y => Some y
    | None => rest r
    end.
Proof.
  destruct r as [|d1 [|d2 [|d3 [|d4 [|e r]]]]];
    [reflexivity | reflexivity | reflexivity | reflexivity | reflexivity |].
  destruct e as [[] [] [] [] [] [] [] []]; try reflexivity.
  cbn [first_paren_year_step year_here Ascii.eqb Bool.eqb andb].
  destruct (isdigit d1 && isdigit d2 && isdigit d3 && isdigit d4); reflexivity.
Qed.

Lemma first_paren_year_cons (c : ascii) (r : string) :
  first_paren_year (String c r)
  = match (if Ascii.eqb c "(" then year_here r else None) with
    | Some y => Some y
    | None => first_paren_year r
    end.
Proof.
  rewrite (first_paren_year_unfold (String c r)).
  destruct (Ascii.eqb_spec c "(") as [->|Hne].
  - apply step_paren.
  - apply step_other. now apply Ascii.eqb_neq.
Qed.

Lemma year_here_spec (r : string) (y : nat) :
  year_here r = Some y <->
  exists d q, r = d +:+ ")" +:+ q /\ year_number d = Some y.
Proof.
  split.
  - destruct r as [|d1 [|d2 [|d3 [|d4 [|e r]]]]]; try discriminate.
    unfold year_here. destruct (Ascii.eqb_spec e ")") as [->|_]; [|discriminate].
    cbn [andb]. intros H.
    exists (String d1 (String d2 (String d3 (String d4 EmptyString)))), r.
    split; [reflexivity|]. exact H.
  - intros (d & q & -> & Hd).
    destruct d as [|d1 [|d2 [|d3 [|d4 [|x d]]]]]; try discriminate.
    unfold year_number in Hd. exact Hd.
Qed.

Lemma isdigit_value (a : ascii) : isdigit a = true -> digit_value a <= 9.
Proof.
  unfold isdigit, digit_value. intros H.
  apply andb_true_iff in H as [_ H]. apply Nat.leb_le in H. lia.
Qed.

Lemma year_number_bound (d : string) (y : nat) :
  year_number d = Some y ->
  y <= 9 * 1000 + 999 /\ String.length d = 4 /\ Py.contains "(" d = false.
Proof.
  destruct d as [|d1 [|d2 [|d3 [|d4 [|x d]]]]]; try discriminate.
  unfold year_number.
  destruct (isdigit d1) eqn:E1; [|discriminate].
  destruct (isdigit d2) eqn:E2; [|discriminate].
  destruct (isdigit d3) eqn:E3; [|discriminate].
  destruct (isdigit d4) eqn:E4; [|discriminate].
  intros [= <-].
  pose proof (isdigit_value _ E1). pose proof (isdigit_value _ E2).
  pose proof (isdigit_value _ E3). pose proof (isdigit_value _ E4).
  split; [lia|]. split; [reflexivity|].
  assert (Hp : forall a, isdigit a = true -> Ascii.eqb a "(" = false).
  { intros a Ha. destruct (Ascii.eqb_spec a "(") as [->|]; [discriminate | reflexivity]. }
  simpl. now rewrite !Hp.
Qed.

Lemma first_paren_year_sound (s : string) (y : nat) :
  first_paren_year s = Some y ->
  exists p d q, s = p +:+ "(" +:+ d +:+ ")" +:+ q /\ year_number d = Some y.
Proof.
  induction s as [|c r IH]; [discriminate|].
  rewrite first_paren_year_cons.
  destruct (Ascii.eqb_spec c "(") as [->|Hne].
  - destruct (year_here r) as [y'|] eqn:E.
    + intros [= ->]. apply year_here_spec in E as (d & q & -> & Hd).
      exists EmptyString, d, q. auto.
    + intros H. destruct (IH H) as (p & d & q & -> & Hd).
      exists (String "(" p), d, q. auto.
  - intros H. destruct (IH H) as (p & d & q & -> & Hd).
    exists (String c p), d, q. auto.
Qed.

Lemma year_here_long (p q : string) :
  5 <= String.length p -> year_here (p +:+ q) = year_here p.
Proof.
  destruct p as [|d1 [|d2 [|d3 [|d4 [|e p]]]]]; simpl; try lia. reflexivity.
Qed.

Lemma year_here_length (p : string) (y : nat) :
  year_here p = Some y -> 5 <= String.length p.
Proof.
  destruct p as [|d1 [|d2 [|d3 [|d4 [|e p]]]]]; try discriminate. simpl. lia.
Qed.

Lemma first_paren_year_length (p : string) (y : nat) :
  first_paren_year p = Some y -> 6 <= String.length p.
Proof.
  induction p as [|c r IH]; [discriminate|].
  rewrite first_paren_year_cons.
  destruct (if Ascii.eqb c "(" then year_here r else None) as [y'|] eqn:E.
  - destruct (Ascii.eqb c "("); [|discriminate].
    apply year_here_length in E. simpl. lia.
  - intros H. specialize (IH H). simpl. lia.
Qed.

Lemma first_paren_year_prefix (p q : string) (y : nat) :
  first_paren_year p = Some y -> first_paren_year (p +:+ q) = Some y.
Proof.
  induction p as [|c r IH]; [discriminate|].
  change (String c r +:+ q) with (String c (r +:+ q)).
  rewrite !first_paren_year_cons.
  destruct (Ascii.eqb c "(").
  - destruct (year_here r) as [y'|] eqn:E.
    + rewrite year_here_long by (eapply year_here_length, E). now rewrite E.
    + intros H. rewrite year_here_long, E by (apply first_paren_year_length in H; lia).
      apply IH, H.
  - apply IH.
Qed.

Lemma year_here_short (p d q : string) :
  String.length d = 4 ->
  year_here p = None -> year_here (p +:+ "(" +:+ d +:+ ")" +:+ q) = None.
Proof.
  intros Hd Hp.
  destruct (le_lt_dec 5 (String.length p)) as [Hl|Hl].
  { now rewrite year_here_long. }
  destruct d as [|x1 [|x2 [|x3 [|x4 [|x5 d]]]]]; try discriminate. clear Hd Hp.
  destruct p as [|d1 [|d2 [|d3 [|d4 [|e p]]]]]; simpl in Hl; try lia;
    unfold year_here; simpl;
    rewrite ?andb_false_r; reflexivity.
Qed.

Lemma first_paren_year_suffix (p d q : string) (y : nat) :
  first_paren_year p = None -> year_number d = Some y ->
  first_paren_year (p +:+ "(" +:+ d +:+ ")" +:+ q) = Some y.
Proof.
  intros Hp Hd. destruct (year_number_bound d y Hd) as (_ & Hlen & _).
  induction p as [|c r IH].
  - change (first_paren_year (String "(" (d +:+ ")" +:+ q)) = Some y).
    rewrite first_paren_year_cons. simpl.
    rewrite (proj2 (year_here_spec (d +:+ ")" +:+ q) y)); eauto.
  - rewrite first_paren_year_cons in Hp.
    change (first_paren_year (String c (r +:+ "(" +:+ d +:+ ")" +:+ q)) = Some y).
    rewrite first_paren_year_cons.
    destruct (Ascii.eqb c "(").
    + destruct (year_here r) eqn:E; [discriminate|].
      rewrite (year_here_short r d q Hlen E). apply IH, Hp.
    + apply IH, Hp.
Qed.

Lemma first_paren_year_first (s : string) (y : nat) :
  first_paren_year s = Some y ->
  exists p d q,
    s = p +:+ "(" +:+ d +:+ ")" +:+ q /\ year_number d = Some y
    /\ first_paren_year p = None.
Proof.
  induction s as [|c r IH]; [discriminate|].
  rewrite first_paren_year_cons.
  destruct (Ascii.eqb_spec c "(") as [->|Hne].
  - destruct (year_here r) as [y'|] eqn:E.
    + intros [= ->]. apply year_here_spec in E as (d & q & -> & Hd).
      exists EmptyString, d, q. auto.
    + intros H. destruct (IH H) as (p & d & q & -> & Hd & Hp).
      exists (String "(" p), d, q. split; [reflexivity|]. split; [exact Hd|].
      rewrite first_paren_year_cons. simpl.
      destruct (year_here p) as [z|] eqn:Ez; [|exact Hp].
      rewrite year_here_long in E by (eapply year_here_length, Ez). congruence.
  - intros H. destruct (IH H) as (p & d & q & -> & Hd & Hp).
    exists (String c p), d, q. split; [reflexivity|]. split; [exact Hd|].
    rewrite first_paren_year_cons.
    apply Ascii.eqb_neq in Hne. now rewrite Hne.
Qed.

Lemma first_paren_year_group (p d q : string) (y : nat) :
  year_number d = Some y ->
  first_paren_year (p +:+ "(" +:+ d +:+ ")" +:+ q)
  = match first_paren_year p with
    | Some y' => Some y'
    | None => Some y
    end.
Proof.
  intros Hd. destruct (first_paren_year p) as [y'|] eqn:E.
  - apply first_paren_year_prefix, E.
  - apply first_paren_year_suffix; assumption.
Qed.

(** X7. The release year is the number written by the first group of four
    digits between parentheses in the title: a result [y] comes from such a
    group with no complete group before it and is at most 9999; a title made
    of a text, a group and a rest has the year of the text's first group if
    the text has one and of that group otherwise; and the result is [None]
    exactly when the title has no such group. *)
Theorem X7_release_year_is_the_first_group :
  (forall s y,
      first_paren_year s = Some y ->
      y <= 9 * 1000 + 999
      /\ exists p d q,
          s = p +:+ "(" +:+ d +:+ ")" +:+ q /\ year_number d = Some y
          /\ first_paren_year p = None)
  /\ (forall p d q y,
        year_number d = Some y ->
        first_paren_year (p +:+ "(" +:+ d +:+ ")" +:+ q)
        = match first_paren_year p with
          | Some y' => Some y'
          | None => Some y
          end)
  /\ (forall s,
        first_paren_year s = None <->
        ~ exists p d q y,
            s = p +:+ "(" +:+ d +:+ ")" +:+ q /\ year_number d = Some y).
Proof.
  split; [|split; [exact first_paren_year_group|]].
  - intros s y H. destruct (first_paren_year_first s y H) as (p & d & q & Hs & Hd & Hp).
    split; [exact (proj1 (year_number_bound d y Hd)) | eauto 6].
  - intros s. split.
    + intros Hnone (p & d & q & y & -> & Hd).
      rewrite (first_paren_year_group p d q y Hd) in Hnone.
      destruct (first_paren_year p); discriminate.
    + intros Hno. destruct (first_paren_year s) as [y|] eqn:E; [|reflexivity].
      destruct Hno. destruct (first_paren_year_sound s y E) as (p & d & q & Hs & Hd).
      eauto 6.
Qed.

(** X8. For a film whose title ends in a group of four digits between
    parentheses, the parser returns the stripped text before the group and
    the four digits, and the record loaded into the table has as release year
    the number of the first such group of the title (that of the final group
    when there is no earlier one), with the decade label of that number, a
    multiple of ten at most nine below it. *)
Theorem X8_title_year_and_release_year
  (m : Movie.t) (p d : string) (y : nat) :
  Movie.title m = p +:+ "(" +:+ d +:+ ")" ->
  year_number d = Some y ->
  extract_title_year (Movie.title m) = (Py.strip p, Some d)
  /\ exists released,
      released = match first_paren_year p with
                 | Some y' => y'
                 | None => y
                 end
      /\ MovieRow.release_year (movie_record m) = Some released
      /\ MovieRow.decade (movie_record m)
         = Some (str_of_nat (released / 10 * 10) +:+ "s")
      /\ released / 10 * 10 <= released < released / 10 * 10 + 10.
Proof.
  intros Ht Hd. destruct (year_number_bound d y Hd) as (_ & Hlen & Hparen).
  split; [rewrite Ht; apply extract_title_year_paren; assumption|].
  eexists. split; [reflexivity|].
  assert (Hr : first_paren_year (Movie.title m)
               = Some match first_paren_year p with
                      | Some y' => y'
                      | None => y
                      end).
  { rewrite Ht.
    change (p +:+ "(" +:+ d +:+ ")") with (p +:+ "(" +:+ d +:+ ")" +:+ EmptyString).
    rewrite (first_paren_year_group p d EmptyString y Hd).
    destruct (first_paren_year p); reflexivity. }
  unfold movie_record. cbn [MovieRow.release_year MovieRow.decade].
  rewrite Hr. split; [reflexivity|]. split; [reflexivity|].
  set (n := match first_paren_year p with Some y' => y' | None => y end).
  pose proof (Nat.div_mod n 10 ltac:(lia)) as Hdm.
  pose proof (Nat.mod_upper_bound n 10 ltac:(lia)). lia.
Qed.

(** X8 at ["Toy Story (1995)"]. *)
Lemma X8_witness_toy_story :
  extract_title_year "Toy Story (1995)" = ("Toy Story", Some "1995")
  /\ MovieRow.release_year
       (movie_record (Movie.mk 1 "Toy Story (1995)" "Animation" None None None))
     = Some 1995
  /\ MovieRow.decade
       (movie_record (Movie.mk 1 "Toy Story (1995)" "Animation" None None None))
     = Some "1990s".
Proof.
  destruct (X8_title_year_and_release_year
              (Movie.mk 1 "Toy Story (1995)" "Animation" None None None)
              "Toy Story " "1995" 1995 eq_refl eq_refl)
    as (Ht & released & Hr & Hy & Hd & _).
  split; [exact Ht|]. split.
  - rewrite Hy, Hr. reflexivity.
  - rewrite Hd, Hr. reflexivity.
Defined.

(** ** Inserts that do nothing on a conflict *)

Section Insert.

Context {A : Type} (key : A -> nat).

Lemma conflict_spec (table : list A) (k : nat) :
  existsb (fun x => key x =? k) table = true <-> k ∈ key <$> table.
Proof.
  rewrite existsb_exists, list_elem_of_fmap. split.
  - intros (x & Hx & Hk). apply Nat.eqb_eq in Hk. exists x.
    split; [now symmetry | now apply list_elem_of_In].
  - intros (x & -> & Hx). exists x. split; [now apply list_elem_of_In | apply Nat.eqb_refl].
Qed.

Lemma select_app (k : nat) (t1 t2 : list A) :
  select key k (t1 ++ t2)
  = match select key k t1 with
    | Some x => Some x
    | None => select key k t2
    end.
Proof.
  unfold select. induction t1 as [|x t1 IH]; simpl; [reflexivity|].
  destruct (key x =? k); [reflexivity | exact IH].
Qed.

Lemma select_none (k : nat) (t : list A) :
  select key k t = None <-> k ∉ key <$> t.
Proof.
  unfold select. induction t as [|x t IH]; simpl.
  - split; [intros _; inversion 1 | reflexivity].
  - rewrite not_elem_of_cons. destruct (Nat.eqb_spec (key x) k) as [E|E].
    + split; [discriminate | intros [H _]; congruence].
    + rewrite IH. split; [intros H; split; [congruence | exact H] | tauto].
Qed.

Lemma select_some (k : nat) (t : list A) (x : A) :
  select key k t = Some x -> x ∈ t /\ key x = k.
Proof.
  unfold select. induction t as [|y t IH]; simpl; [discriminate|].
  destruct (Nat.eqb_spec (key y) k) as [E|E].
  - intros [= <-]. split; [constructor | exact E].
  - intros H. destruct (IH H). split; [now constructor | assumption].
Qed.

Lemma insert_new_select (k : nat) (t : list A) (r : A) :
  select key k (insert_new key t r)
  = match select key k t with
    | Some x => Some x
    | None => if key r =? k then Some r else None
    end.
Proof.
  unfold insert_new. destruct (existsb _ t) eqn:E.
  - destruct (select key k t) as [x|] eqn:Es; [reflexivity|].
    destruct (Nat.eqb_spec (key r) k) as [<-|_]; [|reflexivity].
    apply conflict_spec in E. apply select_none in Es. contradiction.
  - rewrite select_app. unfold select at 2. simpl. reflexivity.
Qed.

Lemma load_select (k : nat) (rows t : list A) :
  select key k (fold_left (insert_new key) rows t)
  = match select key k t with
    | Some x => Some x
    | None => select key k rows
    end.
Proof.
  revert t. induction rows as [|r rows IH]; intros t; simpl.
  - destruct (select key k t); reflexivity.
  - rewrite IH, insert_new_select. destruct (select key k t); [reflexivity|].
    unfold select at 2. simpl. destruct (key r =? k); reflexivity.
Qed.

Lemma load_extends (rows t : list A) :
  exists added,
    fold_left (insert_new key) rows t = t ++ added
    /\ Forall (fun x => x ∈ rows /\ key x ∉ key <$> t) added
    /\ (NoDup (key <$> t) -> NoDup (key <$> (t ++ added))).
Proof.
  revert t. induction rows as [|r rows IH]; intros t; simpl.
  - exists []. rewrite app_nil_r. repeat split; [constructor | auto].
  - destruct (IH (insert_new key t r)) as (added & Heq & Hall & Hnd).
    unfold insert_new in *. destruct (existsb _ t) eqn:E.
    + exists added. split; [exact Heq|]. split; [|exact Hnd].
      eapply Forall_impl; [exact Hall|]. intros x [Hx Hk].
      split; [now constructor | exact Hk].
    + exists (r :: added). rewrite Heq, <- app_assoc. split; [reflexivity|].
      assert (Hr : key r ∉ key <$> t).
      { intros H. apply conflict_spec in H. congruence. }
      split.
      * constructor; [split; [constructor | exact Hr]|].
        eapply Forall_impl; [exact Hall|]. intros x [Hx Hk].
        split; [now constructor|]. intros H. apply Hk.
        rewrite fmap_app. apply elem_of_app. now left.
      * intros Ht. change (t ++ r :: added) with (t ++ [r] ++ added).
        rewrite app_assoc. apply Hnd.
        rewrite fmap_app. apply NoDup_app. split; [exact Ht|].
        split; [|repeat constructor; inversion 1].
        intros k Hk Hk'. apply list_elem_of_singleton in Hk'. subst k. contradiction.
Qed.

Lemma load_absorbed (rows t : list A) :
  Forall (fun r => key r ∈ key <$> t) rows ->
  fold_left (insert_new key) rows t = t.
Proof.
  induction 1 as [|r rows Hr Hrows IH]; simpl; [reflexivity|].
  unfold insert_new at 2. apply conflict_spec in Hr. rewrite Hr. exact IH.
Qed.

Lemma load_keys (rows t : list A) (k : nat) :
  k ∈ key <$> fold_left (insert_new key) rows t
  <-> k ∈ key <$> t \/ k ∈ key <$> rows.
Proof.
  pose proof (load_select k rows t) as H.
  destruct (decide (k ∈ key <$> fold_left (insert_new key) rows t)) as [Hin|Hin].
  - split; [|intros _; exact Hin]. intros _.
    destruct (select key k t) eqn:Et.
    + left. apply select_some in Et as [Hx <-]. now apply list_elem_of_fmap_2.
    + right. destruct (select key k rows) eqn:Er.
      * apply select_some in Er as [Hx <-]. now apply list_elem_of_fmap_2.
      * apply select_none in H. contradiction.
  - split; [contradiction|]. intros Hor. exfalso.
    apply select_none in Hin. rewrite Hin in H.
    destruct (select key k t) eqn:Et; [discriminate|].
    symmetry in H. apply select_none in H, Et. tauto.
Qed.

Lemma load_fresh (rows : list A) :
  NoDup (key <$> rows) -> fold_left (insert_new key) rows [] = rows.
Proof.
  assert (H : forall t, NoDup (key <$> (t ++ rows)) ->
                        fold_left (insert_new key) rows t = t ++ rows).
  { induction rows as [|r rows IH]; intros t Hnd; simpl.
    - now rewrite app_nil_r.
    - unfold insert_new at 2.
      destruct (existsb _ t) eqn:E.
      + apply conflict_spec in E. rewrite fmap_app in Hnd.
        apply NoDup_app in Hnd as (_ & Hd & _). destruct (Hd _ E).
        rewrite fmap_cons. constructor.
      + rewrite IH; rewrite <- app_assoc; [reflexivity | exact Hnd]. }
  intros Hnd. exact (H [] Hnd).
Qed.

End Insert.

(** ** The table [movie] *)

Lemma select_movie_records (k : nat) (ms : list Movie.t) :
  select MovieRow.mid k (movie_record <$> ms)
  = movie_record <$> find (fun m => Movie.movieId m =? k) ms.
Proof.
  unfold select. induction ms as [|m ms IH]; simpl; [reflexivity|].
  destruct (Movie.movieId m =? k); [reflexivity | exact IH].
Qed.

(** X9. After [movies] is loaded, the row stored under an id is the row
    the table already had under that id, if any, and otherwise the record of
    the first film of the catalogue with that id ([None] when there is
    neither): the first insert wins and later ones are ignored. *)
Theorem X9_movie_table_keeps_the_first_row
  (ms : list Movie.t) (table : list MovieRow.t) (k : nat) :
  select MovieRow.mid k (load_movies ms table)
  = match select MovieRow.mid k table with
    | Some row => Some row
    | None => movie_record <$> find (fun m => Movie.movieId m =? k) ms
    end.
Proof.
  unfold load_movies.
  change insert_movie with (insert_new MovieRow.mid).
  rewrite load_select, select_movie_records. reflexivity.
Qed.

Lemma movie_record_ids (ms : list Movie.t) :
  MovieRow.mid <$> (movie_record <$> ms) = Movie.movieId <$> ms.
Proof. rewrite <- list_fmap_compose. reflexivity. Qed.

(** X10. Loading [movies] only appends rows: the old table is kept as it
    is, every added row is the record of a film whose id was not in the
    table, ids that were unique stay unique, and the ids afterwards are those
    of the table and of the catalogue. Loading a catalogue all of whose ids
    are then present changes nothing (so loading twice is loading once), and
    a catalogue with distinct ids loaded into an empty table gives exactly
    its records, in order. *)
Theorem X10_load_movies_only_adds_new_ids
  (ms : list Movie.t) (table : list MovieRow.t) :
  (exists added,
      load_movies ms table = table ++ added
      /\ Forall (fun row => row ∈ movie_record <$> ms
                            /\ MovieRow.mid row ∉ MovieRow.mid <$> table) added)
  /\ (NoDup (MovieRow.mid <$> table) ->
      NoDup (MovieRow.mid <$> load_movies ms table))
  /\ (forall k, k ∈ MovieRow.mid <$> load_movies ms table
                <-> k ∈ MovieRow.mid <$> table \/ k ∈ Movie.movieId <$> ms)
  /\ (forall ms',
        Forall (fun m => Movie.movieId m ∈ MovieRow.mid <$> table
                         \/ Movie.movieId m ∈ Movie.movieId <$> ms) ms' ->
        load_movies ms' (load_movies ms table) = load_movies ms table)
  /\ (NoDup (Movie.movieId <$> ms) -> load_movies ms [] = movie_record <$> ms).
Proof.
  unfold load_movies. change insert_movie with (insert_new MovieRow.mid).
  assert (Hkeys : forall k,
             k ∈ MovieRow.mid <$> fold_left (insert_new MovieRow.mid)
                                    (movie_record <$> ms) table
             <-> k ∈ MovieRow.mid <$> table \/ k ∈ Movie.movieId <$> ms).
  { intros k. rewrite load_keys, movie_record_ids. reflexivity. }
  destruct (load_extends MovieRow.mid (movie_record <$> ms) table)
    as (added & Heq & Hall & Hnd).
  split; [exists added; split; assumption|].
  split; [intros Ht; rewrite Heq; exact (Hnd Ht)|].
  split; [exact Hkeys|]. split.
  - intros ms' Hms'. apply load_absorbed.
    apply Forall_fmap. eapply Forall_impl; [exact Hms'|].
    intros m Hm. apply Hkeys. exact Hm.
  - intros Hnd'. apply load_fresh. now rewrite movie_record_ids.
Qed.

(** ** The table [user_t] *)

Lemma str_of_nat_inj (a b : nat) : str_of_nat a = str_of_nat b -> a = b.
Proof.
  unfold str_of_nat. intros H.
  apply (f_equal NilEmpty.uint_of_string) in H. rewrite !NilEmpty.usu in H.
  injection H as H. apply (f_equal Nat.of_uint) in H.
  now rewrite !DecimalNat.Unsigned.of_to in H.
Qed.

Lemma select_user_records (k : nat) (us : list nat) :
  select fst k (user_record <$> us)
  = if decide (k ∈ us) then Some (user_record k) else None.
Proof.
  induction us as [|u us IH].
  - destruct (decide (k ∈ [])) as [H|_]; [inversion H | reflexivity].
  - rewrite fmap_cons.
    change (select fst k (user_record u :: (user_record <$> us)))
      with (if u =? k then Some (user_record u)
            else select fst k (user_record <$> us)).
    destruct (Nat.eqb_spec u k) as [->|Hne].
    + rewrite decide_True by constructor. reflexivity.
    + rewrite IH. destruct (decide (k ∈ us)) as [H|H].
      * rewrite decide_True by now constructor. reflexivity.
      * rewrite decide_False; [reflexivity|].
        intros H'. apply elem_of_cons in H' as [->|H']; congruence.
Qed.

Lemma user_record_ids (us : list nat) : fst <$> (user_record <$> us) = us.
Proof. rewrite <- list_fmap_compose. apply list_fmap_id. Qed.

(** X11. After the users are loaded, the row stored under an id is the one
    the table had, and otherwise the id with the name ["User_<id>"] when the
    id is among the users; unique ids stay unique. Loading the distinct user
    ids of the ratings into an empty table gives one row for each in the
    order of first appearance, the ids of the table are exactly those of the
    ratings, and different ids get different names. *)
Theorem X11_user_table (userId us : list nat) (table : list (nat * string)) :
  (forall k,
      select fst k (load_users us table)
      = match select fst k table with
        | Some row => Some row
        | None => if decide (k ∈ us) then Some (k, "User_" +:+ str_of_nat k)
                  else None
        end)
  /\ (NoDup (fst <$> table) -> NoDup (fst <$> load_users us table))
  /\ load_users (users userId) [] = user_record <$> users userId
  /\ NoDup (fst <$> load_users (users userId) [])
  /\ (forall k, k ∈ fst <$> load_users (users userId) [] <-> k ∈ userId)
  /\ (forall a b, snd (user_record a) = snd (user_record b) -> a = b).
Proof.
  unfold load_users. change insert_user with (insert_new (A := nat * string) fst).
  assert (Hnd : NoDup (users userId)).
  { unfold users. apply (proj1 (unique_from_spec [] userId)). }
  assert (Hfresh : fold_left (insert_new fst) (user_record <$> users userId) []
                   = user_record <$> users userId).
  { apply load_fresh. now rewrite user_record_ids. }
  split; [intros k; rewrite load_select, select_user_records; reflexivity|].
  split.
  { intros Ht. destruct (load_extends fst (user_record <$> us) table)
      as (added & -> & _ & H). exact (H Ht). }
  split; [exact Hfresh|]. rewrite Hfresh, user_record_ids.
  split; [exact Hnd|]. split.
  - intros k. unfold users, unique.
    rewrite (proj2 (unique_from_spec [] userId)). split; [tauto|].
    intros H. split; [exact H | inversion 1].
  - intros a b H. unfold user_record in H. simpl in H.
    injection H as H. apply str_of_nat_inj, H.
Qed.

(** ** More on the loop *)

Section MoreRows.

Context {Session : Type}.
Variable session_get : Session -> params -> reply * Session.
Variable ratio : string -> string -> Q.

Abbreviation Body := (body session_get ratio).
Abbreviation Loop := (loop session_get ratio).
Abbreviation Run := (run session_get ratio).

Ltac run_body :=
  unfold body, cascade, bind, movie_at, fetch, set_enrichment, note,
    fuzzy_log_append, write_progress, ret, raise in *;
  repeat (case_match; simplify_eq/=).

Ltac new_events :=
  lazymatch goal with
  | |- exists new, ?l = new ++ ?old /\ _ =>
      let rec go l :=
        lazymatch l with
        | old => constr:(@nil event)
        | ?e :: ?l' => let r := go l' in constr:(e :: r)
        end in
      let n := go l in exists n
  end.

(** What the body of a row adds to the record and does to the log and to
    the progress file. *)
Lemma body_record (index : nat) (st : state Session) :
  exists new,
    events (state_of (Body index st)) = new ++ events st
    /\ rows_started new = []
    /\ match Body index st with
       | Ok _ _ => rows_done new = [index]
       | Raise _ _ => rows_done new = []
       end
    /\ fuzzy_log (state_of (Body index st)) = fuzzy_log st ++ logged new
    /\ rows_written new = rows_unresolved new
    /\ progress_file (state_of (Body index st))
       = match last (rows_written new) with
         | Some i => Some {| last_index := Some i |}
         | None => progress_file st
         end
    /\ length (calls new) <= 3
    /\ live_calls new <= length (calls new)
    /\ length (logged new) <= length (rows_done new).
Proof.
  run_body; new_events; split; try reflexivity;
    unfold rows_started, rows_done, logged, rows_written, rows_unresolved,
      calls, live_calls; simpl; rewrite ?app_nil_r;
    repeat split; lia.
Qed.

Lemma rev_omap_app {A B : Type} (f : A -> option B) (l1 l2 : list A) :
  rev (omap f (l1 ++ l2)) = rev (omap f l2) ++ rev (omap f l1).
Proof. now rewrite omap_app, rev_app_distr. Qed.

Lemma last_of_app {A : Type} (l1 l2 : list A) :
  last (l1 ++ l2) = match last l2 with
                    | Some x => Some x
                    | None => last l1
                    end.
Proof.
  induction l2 as [|x l2 IH] using rev_ind.
  - now rewrite app_nil_r.
  - rewrite app_assoc, !last_snoc. reflexivity.
Qed.

Lemma logged_app (l1 l2 : list event) : logged (l1 ++ l2) = logged l2 ++ logged l1.
Proof. apply rev_omap_app. Qed.

Lemma rows_written_app (l1 l2 : list event) :
  rows_written (l1 ++ l2) = rows_written l2 ++ rows_written l1.
Proof. apply rev_omap_app. Qed.

Lemma rows_unresolved_app (l1 l2 : list event) :
  rows_unresolved (l1 ++ l2) = rows_unresolved l2 ++ rows_unresolved l1.
Proof. apply rev_omap_app. Qed.

Lemma rows_started_app (l1 l2 : list event) :
  rows_started (l1 ++ l2) = rows_started l2 ++ rows_started l1.
Proof. apply rev_omap_app. Qed.

Lemma rows_done_app (l1 l2 : list event) :
  rows_done (l1 ++ l2) = rows_done l2 ++ rows_done l1.
Proof. apply rev_omap_app. Qed.

Lemma calls_app (l1 l2 : list event) : calls (l1 ++ l2) = calls l2 ++ calls l1.
Proof. apply rev_omap_app. Qed.

Ltac record_app :=
  rewrite ?logged_app, ?rows_written_app, ?rows_unresolved_app,
    ?rows_started_app, ?rows_done_app, ?calls_app, ?live_calls_app, ?length_app;
  change (logged [RowStarted ?i ?u]) with (@nil log_entry);
  change (rows_written [RowStarted ?i ?u]) with (@nil nat);
  change (rows_unresolved [RowStarted ?i ?u]) with (@nil nat);
  change (rows_done [RowStarted ?i ?u]) with (@nil nat);
  change (calls [RowStarted ?i ?u]) with (@nil (params * reply));
  change (rows_started [RowStarted ?i ?u]) with [i];
  change (live_calls [RowStarted ?i ?u]) with 0;
  rewrite ?app_nil_l, ?app_nil_r.

(** The same over the rows of [range(a, a + n)]. *)
Lemma loop_record (n a : nat) (st : state Session) :
  exists new,
    events (loop_state (Loop (seq a n) st)) = new ++ events st
    /\ fuzzy_log (loop_state (Loop (seq a n) st)) = fuzzy_log st ++ logged new
    /\ rows_written new = rows_unresolved new
    /\ progress_file (loop_state (Loop (seq a n) st))
       = match last (rows_written new) with
         | Some i => Some {| last_index := Some i |}
         | None => progress_file st
         end
    /\ length (calls new) <= 3 * length (rows_started new)
    /\ live_calls new <= length (calls new)
    /\ length (logged new) <= length (rows_done new)
    /\ match Loop (seq a n) st with
       | Completed _ =>
           exists k,
             k <= n /\ rows_started new = seq a k /\ rows_done new = seq a k
             /\ (k = n
                 \/ MAX_REQUESTS_PER_DAY
                    <= requests_used (loop_state (Loop (seq a n) st)))
       | Aborted i _ _ =>
           a <= i < a + n
           /\ rows_started new = seq a (S (i - a))
           /\ rows_done new = seq a (i - a)
       end.
Proof.
  revert a st. induction n as [|n IH]; intros a st.
  { exists []. cbn. rewrite app_nil_r. repeat split; try lia.
    exists 0. repeat split; auto. }
  cbn [seq]. rewrite loop_cons.
  destruct (MAX_REQUESTS_PER_DAY <=? requests_used st) eqn:Hmax.
  { exists []. cbn [loop_state]. rewrite app_nil_r. cbn.
    repeat split; try lia. exists 0. apply Nat.leb_le in Hmax.
    repeat split; auto; lia. }
  destruct (body_record a (started a st))
    as (nb & Hev & Hrs & Hdone & Hlog & Hw & Hpf & Hc & Hl & Hlg).
  cbn [started events fuzzy_log progress_file] in Hev, Hlog, Hpf.
  destruct (Body a (started a st)) as [[] st1|e st1] eqn:Hb; cbn [state_of] in *.
  - destruct (IH (S a) st1)
      as (nr & Hevr & Hlogr & Hwr & Hpfr & Hcr & Hlr & Hlgr & Hres).
    exists (nr ++ nb ++ [RowStarted a (requests_used st)]).
    split; [rewrite Hevr, Hev, <- !app_assoc; reflexivity|].
    record_app.
    split; [rewrite Hlogr, Hlog, <- app_assoc; reflexivity|].
    split; [rewrite Hwr, Hw; reflexivity|].
    split; [rewrite Hpfr, Hpf, last_of_app;
            destruct (last (rows_written nr)); reflexivity|].
    rewrite Hrs. cbn [app length].
    split; [lia|]. split; [lia|]. split; [lia|].
    destruct (Loop (seq (S a) n) st1) as [st2|i e2 st2]; cbn [loop_state] in *.
    + destruct Hres as (k & Hk & Hst & Hdn & Hor). exists (S k).
      split; [lia|]. rewrite Hst, Hdn, Hdone. cbn [seq app].
      split; [reflexivity|]. split; [reflexivity|].
      destruct Hor as [->|H]; [now left | now right].
    + destruct Hres as (Hi & Hst & Hdn). split; [lia|].
      rewrite Hst, Hdn, Hdone.
      replace (i - a) with (S (i - S a)) by lia. split; reflexivity.
  - cbn [loop_state]. exists (nb ++ [RowStarted a (requests_used st)]).
    split; [rewrite Hev, <- app_assoc; reflexivity|].
    record_app.
    split; [exact Hlog|]. split; [exact Hw|]. split; [exact Hpf|].
    rewrite Hrs. cbn [app length].
    split; [lia|]. split; [lia|]. split; [lia|]. rewrite Hdone.
    split; [lia|]. rewrite Nat.sub_diag. split; reflexivity.
Qed.

Lemma length_read_movies (csv : list csv_row) :
  length (read_movies csv) = length csv.
Proof. unfold read_movies. apply length_fmap. Qed.

(** The record of a run is that of its loop. *)
Lemma run_record (csv : list csv_row) (w : store) (s : Session) :
  exists new,
    new = events (run_state (Run csv w s))
    /\ fuzzy_log (run_state (Run csv w s)) = logged new
    /\ rows_written new = rows_unresolved new
    /\ progress_file (run_state (Run csv w s))
       = match last (rows_written new) with
         | Some i => Some {| last_index := Some i |}
         | None => progress_json w
         end
    /\ length (calls new) <= 3 * length (rows_started new)
    /\ live_calls new <= length (calls new)
    /\ length (logged new) <= length (rows_done new)
    /\ match Run csv w s with
       | Finished _ _ =>
           exists k,
             k <= length csv - start_index (progress_json w)
             /\ rows_started new = seq (start_index (progress_json w)) k
             /\ rows_done new = seq (start_index (progress_json w)) k
             /\ (k = length csv - start_index (progress_json w)
                 \/ MAX_REQUESTS_PER_DAY <= requests_used (run_state (Run csv w s)))
       | Crashed i _ _ _ =>
           start_index (progress_json w) <= i < length csv
           /\ rows_started new
              = seq (start_index (progress_json w))
                  (S (i - start_index (progress_json w)))
           /\ rows_done new
              = seq (start_index (progress_json w))
                  (i - start_index (progress_json w))
       end.
Proof.
  destruct (loop_record (length csv - start_index (progress_json w))
              (start_index (progress_json w)) (initial csv w s))
    as (new & Hev & Hlog & Hw & Hpf & Hc & Hl & Hlg & Hres).
  cbn [initial events fuzzy_log progress_file] in Hev, Hlog, Hpf.
  rewrite app_nil_r in Hev.
  exists new. unfold run. cbn [initial movies]. rewrite length_read_movies.
  unfold range.
  destruct (loop session_get ratio _ _) as [st|i e st]; cbn [run_state loop_state] in *.
  - split; [now symmetry|]. do 6 (split; [assumption|]). exact Hres.
  - split; [now symmetry|]. do 6 (split; [assumption|]).
    destruct Hres as (Hi & Hst & Hdn). split; [lia|]. split; assumption.
Qed.

(** X12. The loop visits the rows in order from the start index, one
    after the other and each once. A run that ends normally has entered
    and finished the same rows [start, start + k), and it stops before the
    last row only when the request counter has reached the limit. A run
    that a row aborts has entered the rows up to that row and finished
    those before it. *)
Theorem X12_rows_are_visited_in_order (csv : list csv_row) (w : store) (s : Session) :
  match Run csv w s with
  | Finished st _ =>
      exists k,
        k <= length csv - start_index (progress_json w)
        /\ rows_started (events st) = seq (start_index (progress_json w)) k
        /\ rows_done (events st) = seq (start_index (progress_json w)) k
        /\ (k = length csv - start_index (progress_json w)
            \/ MAX_REQUESTS_PER_DAY <= requests_used st)
  | Crashed i _ st _ =>
      start_index (progress_json w) <= i < length csv
      /\ rows_started (events st)
         = seq (start_index (progress_json w))
             (S (i - start_index (progress_json w)))
      /\ rows_done (events st)
         = seq (start_index (progress_json w)) (i - start_index (progress_json w))
  end.
Proof.
  destruct (run_record csv w s) as (new & -> & _ & _ & _ & _ & _ & _ & H).
  destruct (Run csv w s); exact H.
Qed.

(** X13. [fuzzy_log] holds exactly the entries of the rows that ended as
    mismatch or as fuzzy match, in the order of the rows, at most one for a
    finished row. [fuzzy_matches.json] is rewritten with that list when the
    run ends normally and the list is not empty, and is left as it was
    otherwise. *)
Theorem X13_fuzzy_log_is_the_logged_outcomes
  (csv : list csv_row) (w : store) (s : Session) :
  fuzzy_log (run_state (Run csv w s)) = logged (events (run_state (Run csv w s)))
  /\ length (fuzzy_log (run_state (Run csv w s)))
     <= length (rows_done (events (run_state (Run csv w s))))
  /\ fuzzy_matches_json (run_store (Run csv w s))
     = match Run csv w s with
       | Finished st _ =>
           match logged (events st) with
           | [] => fuzzy_matches_json w
           | _ => Some (logged (events st))
           end
       | Crashed _ _ _ _ => fuzzy_matches_json w
       end.
Proof.
  destruct (run_record csv w s) as (new & -> & Hlog & _ & _ & _ & _ & Hlg & _).
  split; [exact Hlog|]. split; [rewrite Hlog; exact Hlg|].
  clear Hlg. revert Hlog. unfold run.
  destruct (loop session_get ratio _ _) as [st|i e st];
    cbn [run_state run_store fuzzy_matches_json]; [|reflexivity].
  intros <-. unfold save_fuzzy_log. destruct (fuzzy_log st); reflexivity.
Qed.

(** X14. The progress file is written for exactly the rows that ended
    without being resolved, in their order. After the run it names the last
    such row, and it is as it was before the run when there is none. *)
Theorem X14_progress_file_names_the_last_unresolved_row
  (csv : list csv_row) (w : store) (s : Session) :
  rows_written (events (run_state (Run csv w s)))
  = rows_unresolved (events (run_state (Run csv w s)))
  /\ progress_json (run_store (Run csv w s))
     = match last (rows_unresolved (events (run_state (Run csv w s)))) with
       | Some i => Some {| last_index := Some i |}
       | None => progress_json w
       end.
Proof.
  destruct (run_record csv w s) as (new & -> & _ & Hw & Hpf & _).
  split; [exact Hw|]. rewrite <- Hw, <- Hpf. unfold run.
  destruct (loop session_get ratio _ _) as [st|i e st]; reflexivity.
Qed.

(** X15. A row makes at most three calls: the calls of a run are at
    most three times the rows entered, which are at most the rows from the
    start index to the end of the catalogue, and [requests_used] is at most
    the number of calls. *)
Theorem X15_at_most_three_calls_for_a_row
  (csv : list csv_row) (w : store) (s : Session) :
  length (calls (events (run_state (Run csv w s))))
  <= 3 * length (rows_started (events (run_state (Run csv w s))))
  /\ length (rows_started (events (run_state (Run csv w s))))
     <= length csv - start_index (progress_json w)
  /\ requests_used (run_state (Run csv w s))
     <= length (calls (events (run_state (Run csv w s)))).
Proof.
  destruct (run_record csv w s) as (new & -> & _ & _ & _ & Hc & Hl & _ & Hres).
  split; [exact Hc|]. split.
  - destruct (Run csv w s) as [st w'|i e st w']; cbn [run_state] in *.
    + destruct Hres as (k & Hk & -> & _). rewrite length_seq. exact Hk.
    + destruct Hres as (Hi & -> & _). rewrite length_seq. lia.
  - pose proof (counted_loop session_get ratio
                  (range (start_index (progress_json w)) (length (read_movies csv)))
                  (initial csv w s) (counted_initial csv w s)) as (Hu & _).
    rewrite <- run_state_loop in Hu. rewrite Hu. exact Hl.
Qed.

(** ** The catalogue during a run *)

Lemma fmap_alter_same {A B : Type} (f : A -> B) (g : A -> A) (i : nat) (l : list A) :
  (forall x, f (g x) = f x) -> f <$> alter g i l = f <$> l.
Proof.
  intros H. revert i. induction l as [|x l IH]; intros [|i]; simpl;
    rewrite ?H; try reflexivity.
  f_equal. apply IH.
Qed.

Lemma body_columns (index : nat) (st : state Session) :
  csv_columns <$> movies (state_of (Body index st)) = csv_columns <$> movies st.
Proof.
  destruct (body_movies session_get ratio index st)
    as (new & _ & [[-> _]|(d & o & rest & -> & _)]); [reflexivity|].
  apply fmap_alter_same. reflexivity.
Qed.

(** What holds before the loop and is kept by the body of every row holds
    after the loop. *)
Lemma loop_keeps (P : state Session -> Prop) (indices : list nat)
  (st : state Session) :
  (forall index st, P st -> P (state_of (Body index (started index st)))) ->
  P st -> P (loop_state (Loop indices st)).
Proof.
  intros Hbody. revert st. induction indices as [|i rest IH]; intros st Hst.
  - exact Hst.
  - rewrite loop_cons.
    destruct (MAX_REQUESTS_PER_DAY <=? requests_used st); [exact Hst|].
    specialize (Hbody i st Hst).
    destruct (Body i (started i st)) as [[] st1|e st1]; cbn [state_of] in Hbody.
    + apply IH, Hbody.
    + exact Hbody.
Qed.

(** X16. The loop writes only the three enrichment columns: after the
    run, [movieId], [title] and [genres] of every row are those of
    [movies.csv], and the number of rows is unchanged. *)
Theorem X16_csv_columns_are_kept (csv : list csv_row) (w : store) (s : Session) :
  csv_columns <$> movies (run_state (Run csv w s))
  = (fun r => (csv_movieId r, csv_title r, csv_genres r)) <$> csv
  /\ length (movies (run_state (Run csv w s))) = length csv.
Proof.
  assert (H : csv_columns <$> movies (run_state (Run csv w s))
              = (fun r => (csv_movieId r, csv_title r, csv_genres r)) <$> csv).
  { rewrite run_state_loop.
    apply (loop_keeps (fun st => csv_columns <$> movies st
                                 = (fun r => (csv_movieId r, csv_title r, csv_genres r))
                                     <$> csv)).
    - intros index st Hst. rewrite body_columns. exact Hst.
    - cbn [initial movies]. unfold read_movies.
      rewrite <- list_fmap_compose. reflexivity. }
  split; [exact H|].
  apply (f_equal length) in H. now rewrite !length_fmap in H.
Qed.

(** ** The entries of the log *)

Lemma body_entries (index : nat) (st : state Session) :
  exists new,
    events (state_of (Body index st)) = new ++ events st
    /\ Forall (entry_recorded ratio (movies st)) new.
Proof.
  run_body; new_events; (split; [reflexivity|]);
    repeat constructor;
    try (eexists; split; [eassumption|];
         match goal with
         | H : extract_title_year _ = _ |- _ => rewrite H
         end; cbn; eauto).
Qed.

Lemma entry_recorded_columns (ms ms' : list Movie.t) (e : event) :
  csv_columns <$> ms = csv_columns <$> ms' ->
  entry_recorded ratio ms e -> entry_recorded ratio ms' e.
Proof.
  intros Hc. destruct e as [i u|p r u|j o|i]; simpl; auto.
  intros (m & Hm & He).
  assert (Hl : (csv_columns <$> ms') !! j = Some (csv_columns m))
    by (rewrite <- Hc, list_lookup_fmap, Hm; reflexivity).
  rewrite list_lookup_fmap in Hl.
  destruct (ms' !! j) as [m'|]; [|discriminate].
  exists m'. split; [reflexivity|].
  unfold csv_columns in Hl. cbn in Hl.
  assert (Ht : Movie.title m' = Movie.title m) by congruence.
  now rewrite Ht.
Qed.

Lemma loop_entries (indices : list nat) (st : state Session) :
  exists new,
    events (loop_state (Loop indices st)) = new ++ events st
    /\ Forall (entry_recorded ratio (movies st)) new.
Proof.
  revert st. induction indices as [|i rest IH]; intros st.
  { exists []. split; [reflexivity | constructor]. }
  rewrite loop_cons.
  destruct (MAX_REQUESTS_PER_DAY <=? requests_used st).
  { exists []. split; [reflexivity | constructor]. }
  destruct (body_entries i (started i st)) as (nb & Hev & Hnb).
  pose proof (body_columns i (started i st)) as Hcol.
  cbn [started events movies] in Hev, Hnb, Hcol.
  destruct (Body i (started i st)) as [[] st1|e st1]; cbn [state_of loop_state] in *.
  - destruct (IH st1) as (nr & Hevr & Hnr).
    exists (nr ++ nb ++ [RowStarted i (requests_used st)]).
    split; [rewrite Hevr, Hev, <- !app_assoc; reflexivity|].
    apply Forall_app. split.
    + eapply Forall_impl; [exact Hnr|]. intros e.
      apply entry_recorded_columns, Hcol.
    + apply Forall_app. split; [exact Hnb | repeat constructor].
  - exists (nb ++ [RowStarted i (requests_used st)]).
    split; [rewrite Hev, <- app_assoc; reflexivity|].
    apply Forall_app. split; [exact Hnb | repeat constructor].
Qed.

(** X17. Every outcome recorded for a row [j] belongs to a row of
    [movies.csv]; the entry of a mismatch has as [CSV Title] the title that
    [extract_title_year] gives for that row and as score the ratio of the
    two titles in lower case, and the entry of a fuzzy match has that title,
    the ratio of the title and the suggested match as they are, and a
    year. *)
Theorem X17_log_entries_come_from_their_row
  (csv : list csv_row) (w : store) (s : Session) (j : nat) (o : outcome) :
  Outcome j o ∈ events (run_state (Run csv w s)) ->
  exists r,
    csv !! j = Some r
    /\ entry_of ratio (extract_title_year (csv_title r)).1 o.
Proof.
  rewrite run_state_loop.
  destruct (loop_entries (range (start_index (progress_json w))
                            (length (read_movies csv))) (initial csv w s))
    as (new & -> & Hnew).
  cbn [initial events movies] in *. rewrite app_nil_r. intros Hin.
  rewrite Forall_forall in Hnew. destruct (Hnew _ Hin) as (m & Hm & He).
  unfold read_movies in Hm. rewrite list_lookup_fmap in Hm.
  destruct (csv !! j) as [r|]; [|discriminate].
  injection Hm as <-. exists r. split; [reflexivity | exact He].
Qed.

(** ** Where the enrichment of a row comes from *)

Lemma body_enriches (index : nat) (st : state Session) :
  exists new,
    events (state_of (Body index st)) = new ++ events st
    /\ (movies (state_of (Body index st)) = movies st
        \/ exists row p c d u,
             movies st !! index = Some row
             /\ Requested p (Answers c d) u ∈ new
             /\ enriched_by row (enrich d row) (Requested p (Answers c d) u)
             /\ movies (state_of (Body index st))
                = alter (enrich d) index (movies st)).
Proof.
  run_body; new_events; (split; [reflexivity|]);
    first
      [ left; reflexivity
      | right; do 5 eexists; split; [first [eassumption | reflexivity]|];
        split; [repeat constructor|];
        split; [|reflexivity];
        unfold enriched_by, title_of, year_of;
        match goal with
        | H : extract_title_year _ = _ |- _ => rewrite H
        end;
        split; [assumption|]; split; [reflexivity|];
        first [ left; reflexivity
              | right; split; [reflexivity | now apply String.eqb_eq] ] ].
Qed.

Lemma loop_enriches (base : list Movie.t) (indices : list nat)
  (st : state Session) :
  (forall j m, movies st !! j = Some m ->
     exists r, base !! j = Some r
               /\ (m = r \/ exists e, e ∈ events st /\ enriched_by r m e)) ->
  forall j m, movies (loop_state (Loop indices st)) !! j = Some m ->
    exists r, base !! j = Some r
              /\ (m = r
                  \/ exists e, e ∈ events (loop_state (Loop indices st))
                               /\ enriched_by r m e).
Proof.
  apply (loop_keeps
           (fun st => forall j m, movies st !! j = Some m ->
              exists r, base !! j = Some r
                        /\ (m = r
                            \/ exists e, e ∈ events st /\ enriched_by r m e))).
  clear st. intros index st Hst.
  destruct (body_enriches index (started index st))
    as (new & Hev & Hmov).
  cbn [started movies events] in Hev, Hmov.
  assert (Hold : forall j m, movies st !! j = Some m ->
            exists r, base !! j = Some r
                      /\ (m = r
                          \/ exists e,
                               e ∈ events (state_of (Body index (started index st)))
                               /\ enriched_by r m e)).
  { intros j m Hj. destruct (Hst j m Hj) as (r & Hr & [->|(e & He & Hby)]);
      exists r; (split; [exact Hr|]); [now left|].
    right. exists e. split; [|exact Hby].
    rewrite Hev. apply elem_of_app. right. now apply list_elem_of_further. }
  destruct Hmov as [Hm|(row & p & c & d & u & Hrow & Hin & Hen & Hm)];
    intros j m Hj; rewrite Hm in Hj; [now apply Hold|].
  destruct (decide (j = index)) as [->|Hne].
  - rewrite list_lookup_alter_eq, Hrow in Hj. injection Hj as <-.
    destruct (Hst index row Hrow) as (r & Hr & Hor).
    exists r. split; [exact Hr|]. right.
    exists (Requested p (Answers c d) u).
    split; [rewrite Hev; apply elem_of_app; now left|].
    destruct Hor as [->|(e0 & _ & Hby)]; [exact Hen|].
    destruct e0 as [| p0 [|c0 d0|c0] u0 | |]; try contradiction.
    destruct Hby as (_ & -> & _). exact Hen.
  - rewrite list_lookup_alter_ne in Hj by congruence. now apply Hold.
Qed.

(** X18. After a run, a row of [movies] is the row read from
    [movies.csv], with its three empty columns, or that row with the
    [Director], [Plot] and [BoxOffice] of an answer with [Response] ["True"]
    to a call of the run: the exact query for the title and year of the
    row, or its title-only query with an answer whose cleaned title is the
    cleaned title of the row. *)
Theorem X18_enrichment_comes_from_a_found_answer
  (csv : list csv_row) (w : store) (s : Session) (j : nat) (m : Movie.t) :
  movies (run_state (Run csv w s)) !! j = Some m ->
  exists r,
    read_movies csv !! j = Some r
    /\ (m = r
        \/ exists e, e ∈ events (run_state (Run csv w s)) /\ enriched_by r m e).
Proof.
  rewrite run_state_loop. apply loop_enriches.
  cbn [initial movies]. intros i r Hr. exists r. split; [exact Hr | now left].
Qed.

(** ** The calls of a row *)

(** X19. The calls that the body makes for a row: the exact query for
    the title and year of the row; after it the title-only query, only if
    the exact query was answered and found nothing; and after that the
    search for the title, only if the title-only query was answered and
    found nothing either. Nothing is called after a call that raises or
    that finds a film, and a row that is not in the table raises [KeyError]
    before any call. *)
Theorem X19_calls_of_a_row (index : nat) (st : state Session) :
  exists new,
    events (state_of (Body index st)) = new ++ events st
    /\ match movies st !! index with
       | Some row => cascade_calls (title_of row) (year_of row) (calls new)
       | None => new = [] /\ Body index st = Raise KeyError st
       end.
Proof.
  destruct (movies st !! index) as [row|] eqn:Hrow.
  - run_body; new_events; (split; [reflexivity|]);
      unfold cascade_calls, calls, passes_on, title_of, year_of; cbn;
      repeat match goal with
             | H : extract_title_year _ = _ |- _ => rewrite H
             | H : found _ = _ |- _ => rewrite H
             end; cbn; auto 10.
  - exists []. unfold body, cascade, bind, movie_at. rewrite Hrow.
    cbn. destruct st; auto.
Qed.

(** ** A later run and the table [movie] *)




End MoreRows.

(** ** The theorems at concrete rows *)

(** X17 at row 1 of [four_films]: the title-only query of ["Heat (1995)"]
    is answered with ["The Heat"], and the entry logged carries the title
    ["Heat"] and the ratio of ["heat"] and ["the heat"]. *)
Lemma X17_witness_heat :
  exists r,
    four_films !! 1 = Some r
    /\ entry_of demo_ratio (extract_title_year (csv_title r)).1
         (MismatchLogged {| CSV_Title := "Heat";
                            Suggested_Match := "The Heat";
                            entry_Year := Some "2013";
                            Score := demo_ratio "heat" "the heat" |}).
Proof.
  apply (X17_log_entries_come_from_their_row (Web.get demo_service) demo_ratio
           four_films empty_store Web.fresh 1
           (MismatchLogged {| CSV_Title := "Heat";
                              Suggested_Match := "The Heat";
                              entry_Year := Some "2013";
                              Score := demo_ratio "heat" "the heat" |})).
  vm_compute. repeat constructor.
Defined.

(** X18 at row 0 of [four_films]: after the run the row holds the director,
    the plot and the box office of the answer to its exact query. *)
Lemma X18_witness_toy_story :
  exists r,
    read_movies four_films !! 0 = Some r
    /\ (Movie.mk 1 "Toy Story (1995)" "Animation" (Some "John Lasseter")
         (Some "A plot.") (Some "N/A") = r
        \/ exists e,
             e ∈ events (run_state (run (Web.get demo_service) demo_ratio
                                      four_films empty_store Web.fresh))
             /\ enriched_by r
                  (Movie.mk 1 "Toy Story (1995)" "Animation"
                     (Some "John Lasseter") (Some "A plot.") (Some "N/A")) e).
Proof.
  apply (X18_enrichment_comes_from_a_found_answer (Web.get demo_service)
           demo_ratio four_films empty_store Web.fresh 0
           (Movie.mk 1 "Toy Story (1995)" "Animation" (Some "John Lasseter")
              (Some "A plot.") (Some "N/A"))).
  vm_compute. reflexivity.
Defined.

